(** * blitz_test: the asset stripper and the studio viewer's camera code

    The repository holds two scripts.

    - The optimisation script reads a glTF document, deletes texture data
      and the vertex attributes a wireframe does not need, and hands the
      document to an external compression pipeline.  The deletions (the part
      of [optimize] between reading the file and calling the pipeline) are
      embedded in module [Stripper].
    - The studio viewer frames a loaded model with [fitCameraToSelection] and
      switches between fixed views with [setCameraView].  Both are embedded
      in module [Viewer].

    JavaScript's abrupt completions are modelled by [completion]. *)

From Stdlib Require Import List String Bool Floats QArith Reals Lra.
From Stdlib Require Import Permutation.
Import ListNotations.
Local Close Scope Q_scope.
Local Open Scope string_scope.
Set Warnings "-register-all".

(** ** Completions *)

(** A JavaScript call either completes normally with a value or throws; the
    thrown error is identified by the name of its constructor. *)
Inductive completion (A : Type) : Type :=
| Normal (a : A)
| Throw (name : string).
Arguments Normal {A} a.
Arguments Throw {A} name.

Definition bind {A B : Type} (c : completion A) (k : A -> completion B)
  : completion B :=
  match c with
  | Normal a => k a
  | Throw n => Throw n
  end.

Notation "x <- c ;; k" := (bind c (fun x => k))
  (at level 61, c at next level, right associativity).

(** ** The asset stripper *)

Module Stripper.

(** The value [fs.readJsonSync] returns: a parsed JSON document.  Numbers are
    IEEE doubles; an object keeps its properties in insertion order. *)
Inductive json : Type :=
| JNull
| JBool (b : bool)
| JNum (n : float)
| JStr (s : string)
| JArr (elems : list json)
| JObj (props : list (string * json)).

(** Own-property lookup; [None] is JavaScript's [undefined]. *)
Fixpoint lookup (k : string) (o : list (string * json)) : option json :=
  match o with
  | [] => None
  | (k', v) :: o' => if String.eqb k k' then Some v else lookup k o'
  end.

(** [delete o.k] on the property list of an object. *)
Definition remove (k : string) (o : list (string * json))
  : list (string * json) :=
  filter (fun e => negb (String.eqb k (fst e))) o.

(** The property list after the value stored under [k] has been changed by
    [g]; the property keeps its place. *)
Fixpoint update (k : string) (g : json -> json) (o : list (string * json))
  : list (string * json) :=
  match o with
  | [] => []
  | (k', v) :: o' =>
      if String.eqb k k' then (k', g v) :: o' else (k', v) :: update k g o'
  end.

(** JavaScript's ToBoolean on what a property read returns. *)
Definition ToBoolean (v : option json) : bool :=
  match v with
  | None => false
  | Some JNull => false
  | Some (JBool b) => b
  | Some (JNum n) => negb (PrimFloat.eqb n PrimFloat.zero || PrimFloat.is_nan n)
  | Some (JStr s) => negb (String.eqb s "")
  | Some (JArr _) => true
  | Some (JObj _) => true
  end.

(** [v.k] for the property names the script uses (none of them is an array
    index, [length] or a member of a built-in prototype): reading from [null]
    throws, an object answers with its own property, and every other value
    answers [undefined]. *)
Definition getProp (v : json) (k : string) : completion (option json) :=
  match v with
  | JNull => Throw "TypeError"
  | JObj o => Normal (lookup k o)
  | _ => Normal None
  end.

(** [delete v.k]: throws on [null], removes the property of an object, and
    does nothing on any other value. *)
Definition deleteProp (v : json) (k : string) : completion json :=
  match v with
  | JNull => Throw "TypeError"
  | JObj o => Normal (JObj (remove k o))
  | _ => Normal v
  end.

(** The script mutates the object a property refers to; [putProp v k c] is
    [v] as it is seen once the object under [k] has become [c]. *)
Definition putProp (v : json) (k : string) (c : json) : json :=
  match v with
  | JObj o => JObj (update k (fun _ => c) o)
  | _ => v
  end.

(** The callback of [forEach] run over the elements, in order. *)
Fixpoint forEach (f : json -> completion json) (l : list json)
  : completion (list json) :=
  match l with
  | [] => Normal []
  | x :: l' => y <- f x ;; r <- forEach f l' ;; Normal (y :: r)
  end.

(** [recv.forEach(f)]: only an array has a callable [forEach]. *)
Definition callForEach (recv : option json) (f : json -> completion json)
  : completion json :=
  match recv with
  | Some (JArr l) => l' <- forEach f l ;; Normal (JArr l')
  | _ => Throw "TypeError"
  end.

(** [if (v.k) { body(v.k) }], the body mutating the object [v.k] refers to. *)
Definition whenProp (v : json) (k : string)
    (body : option json -> completion json) : completion json :=
  c <- getProp v k ;;
  if ToBoolean c then c' <- body c ;; Normal (putProp v k c') else Normal v.

(** Lines 234-237: the two deletions inside [mat.pbrMetallicRoughness]. *)
Definition strip_pbr (pbr : option json) : completion json :=
  match pbr with
  | Some p =>
      p <- deleteProp p "baseColorTexture" ;;
      deleteProp p "metallicRoughnessTexture"
  | None => Throw "TypeError"
  end.

(** Lines 233-241: the callback run on each material. *)
Definition strip_mat (mat : json) : completion json :=
  mat <- whenProp mat "pbrMetallicRoughness" strip_pbr ;;
  mat <- deleteProp mat "normalTexture" ;;
  mat <- deleteProp mat "occlusionTexture" ;;
  deleteProp mat "emissiveTexture".

(** Lines 250-256: the five deletions inside [primitive.attributes]. *)
Definition strip_attributes (attributes : option json) : completion json :=
  match attributes with
  | Some a =>
      a <- deleteProp a "NORMAL" ;;
      a <- deleteProp a "TEXCOORD_0" ;;
      a <- deleteProp a "TEXCOORD_1" ;;
      a <- deleteProp a "TANGENT" ;;
      deleteProp a "COLOR_0"
  | None => Throw "TypeError"
  end.

(** Lines 249-257: the callback run on each primitive. *)
Definition strip_primitive (primitive : json) : completion json :=
  whenProp primitive "attributes" strip_attributes.

(** Lines 247-259: the callback run on each mesh. *)
Definition strip_mesh (mesh : json) : completion json :=
  whenProp mesh "primitives" (fun ps => callForEach ps strip_primitive).

(** Lines 228-260 of [optimize]: everything the script does to the document
    between reading it and passing it to the compression pipeline. *)
Definition optimize_strip (gltf : json) : completion json :=
  gltf <- deleteProp gltf "images" ;;
  gltf <- deleteProp gltf "textures" ;;
  gltf <- deleteProp gltf "samplers" ;;
  gltf <- whenProp gltf "materials" (fun ms => callForEach ms strip_mat) ;;
  whenProp gltf "meshes" (fun ms => callForEach ms strip_mesh).

(** *** The reduction the specification describes

    Section 4.2 of the specification describes the stripper as field removal:
    three tables at the top level, five texture references per material and
    five attribute entries per primitive.  [strip_spec] writes that down as a
    total function built from three combinators, none of which can touch
    anything but the property it names. *)

(** The own property [k] of a value; only objects have any. *)
Definition prop (v : json) (k : string) : option json :=
  match v with
  | JObj o => lookup k o
  | _ => None
  end.

(** Remove the property [k], when [v] is an object. *)
Definition erase (k : string) (v : json) : json :=
  match v with
  | JObj o => JObj (remove k o)
  | _ => v
  end.

Definition erase_all (ks : list string) (v : json) : json :=
  fold_left (fun v k => erase k v) ks v.

(** Apply [g] to what is stored under [k], when [v] is an object. *)
Definition in_field (k : string) (g : json -> json) (v : json) : json :=
  match v with
  | JObj o => JObj (update k g o)
  | _ => v
  end.

(** Apply [g] to every element, when [v] is an array. *)
Definition in_each (g : json -> json) (v : json) : json :=
  match v with
  | JArr l => JArr (map g l)
  | _ => v
  end.

Definition texture_tables : list string := ["images"; "textures"; "samplers"].
Definition pbr_textures : list string :=
  ["baseColorTexture"; "metallicRoughnessTexture"].
Definition material_textures : list string :=
  ["normalTexture"; "occlusionTexture"; "emissiveTexture"].
Definition wireframe_unused : list string :=
  ["NORMAL"; "TEXCOORD_0"; "TEXCOORD_1"; "TANGENT"; "COLOR_0"].

Definition spec_material (mat : json) : json :=
  erase_all material_textures
    (in_field "pbrMetallicRoughness" (erase_all pbr_textures) mat).

Definition spec_primitive (primitive : json) : json :=
  in_field "attributes" (erase_all wireframe_unused) primitive.

Definition spec_mesh (mesh : json) : json :=
  in_field "primitives" (in_each spec_primitive) mesh.

Definition strip_spec (scene : json) : json :=
  in_field "meshes" (in_each spec_mesh)
    (in_field "materials" (in_each spec_material)
       (erase_all texture_tables scene)).

(** *** Where the script throws *)

Definition not_null (v : json) : bool :=
  match v with
  | JNull => false
  | _ => true
  end.

(** [if (c) body(c)] does not throw: [c] is falsy, or it passes [ok]. *)
Definition guard (ok : json -> bool) (c : option json) : bool :=
  match c with
  | Some cv => if ToBoolean c then ok cv else true
  | None => true
  end.

Definition is_array_of (ok : json -> bool) (v : json) : bool :=
  match v with
  | JArr l => forallb ok l
  | _ => false
  end.

Definition mesh_defined (mesh : json) : bool :=
  not_null mesh && guard (is_array_of not_null) (prop mesh "primitives").

(** The documents on which the deletions run to completion. *)
Definition strip_defined (gltf : json) : bool :=
  not_null gltf
  && guard (is_array_of not_null) (prop gltf "materials")
  && guard (is_array_of mesh_defined) (prop gltf "meshes").

(** *** Scene descriptions

    The shape section 3 of the specification gives a scene description: an
    object whose [materials], when present, is a list of objects (each with
    an optional [pbrMetallicRoughness] object) and whose [meshes], when
    present, is a list of objects with an optional list of primitives, each
    an object with an optional [attributes] object. *)

Definition is_object (v : json) : bool :=
  match v with
  | JObj _ => true
  | _ => false
  end.

(** An absent property, or one that satisfies [p]. *)
Definition optional (p : json -> bool) (c : option json) : bool :=
  match c with
  | Some cv => p cv
  | None => true
  end.

Definition is_material (mat : json) : bool :=
  is_object mat && optional is_object (prop mat "pbrMetallicRoughness").

Definition is_primitive (primitive : json) : bool :=
  is_object primitive && optional is_object (prop primitive "attributes").

Definition is_mesh (mesh : json) : bool :=
  is_object mesh
  && optional (is_array_of is_primitive) (prop mesh "primitives").

Definition is_scene (scene : json) : bool :=
  is_object scene
  && optional (is_array_of is_material) (prop scene "materials")
  && optional (is_array_of is_mesh) (prop scene "meshes").

(** *** The invariant after stripping *)

Definition has_key (k : string) (v : json) : bool :=
  match prop v k with
  | Some _ => true
  | None => false
  end.

Definition lacks (ks : list string) (v : json) : bool :=
  forallb (fun k => negb (has_key k v)) ks.

(** Every element satisfies [p], when the property is an array. *)
Definition each (p : json -> bool) (c : option json) : bool :=
  match c with
  | Some (JArr l) => forallb p l
  | _ => true
  end.

Definition material_stripped (mat : json) : bool :=
  lacks material_textures mat
  && optional (lacks pbr_textures) (prop mat "pbrMetallicRoughness").

Definition primitive_stripped (primitive : json) : bool :=
  optional (lacks wireframe_unused) (prop primitive "attributes").

Definition mesh_stripped (mesh : json) : bool :=
  each primitive_stripped (prop mesh "primitives").

Definition stripped (scene : json) : bool :=
  lacks texture_tables scene
  && each material_stripped (prop scene "materials")
  && each mesh_stripped (prop scene "meshes").

(** *** Addressing a value inside a document *)

Inductive step : Type :=
| Key (k : string)
| Index (i : nat).

(** One step into a value: an own property or an array element. *)
Definition child (st : step) (v : json) : option json :=
  match st with
  | Key k => prop v k
  | Index i =>
      match v with
      | JArr l => nth_error l i
      | _ => None
      end
  end.

Fixpoint at_path (p : list step) (v : json) : option json :=
  match p with
  | [] => Some v
  | st :: p' =>
      match child st v with
      | Some c => at_path p' c
      | None => None
      end
  end.

(** The places of a document the reduction visits, what it erases at each,
    and how it moves from one to the next. *)
Inductive site : Type :=
| Scene | Materials | Material | Pbr
| Meshes | Mesh | Primitives | Primitive | Attributes.

Definition erased_at (s : site) : list string :=
  match s with
  | Scene => texture_tables
  | Material => material_textures
  | Pbr => pbr_textures
  | Attributes => wireframe_unused
  | _ => []
  end.

Definition descend (s : site) (st : step) : option site :=
  match s, st with
  | Scene, Key k =>
      if String.eqb k "materials" then Some Materials
      else if String.eqb k "meshes" then Some Meshes else None
  | Materials, Index _ => Some Material
  | Material, Key k =>
      if String.eqb k "pbrMetallicRoughness" then Some Pbr else None
  | Meshes, Index _ => Some Mesh
  | Mesh, Key k => if String.eqb k "primitives" then Some Primitives else None
  | Primitives, Index _ => Some Primitive
  | Primitive, Key k =>
      if String.eqb k "attributes" then Some Attributes else None
  | _, _ => None
  end.

Definition reduce_at (s : site) : json -> json :=
  match s with
  | Scene => strip_spec
  | Materials => in_each spec_material
  | Material => spec_material
  | Pbr => erase_all pbr_textures
  | Meshes => in_each spec_mesh
  | Mesh => spec_mesh
  | Primitives => in_each spec_primitive
  | Primitive => spec_primitive
  | Attributes => erase_all wireframe_unused
  end.

Definition not_among (k : string) (ks : list string) : bool :=
  forallb (fun k' => negb (String.eqb k k')) ks.

(** A path is untouched when it leaves the visited places through a step
    that is not an erased property. *)
Fixpoint untouched (s : site) (p : list step) : bool :=
  match p with
  | [] => false
  | st :: p' =>
      match descend s st with
      | Some s' => untouched s' p'
      | None =>
          match st with
          | Key k => not_among k (erased_at s)
          | Index _ => true
          end
      end
  end.

(** Where a primitive keeps its vertex positions and its connectivity. *)
Definition primitive_path (mesh primitive : nat) (rest : list step)
  : list step :=
  Key "meshes" :: Index mesh :: Key "primitives" :: Index primitive :: rest.

(** *** Sample documents *)

Definition accessor (i : float) : json := JNum i.

(** A textured, lit triangle mesh with one material. *)
Definition textured_scene : json :=
  JObj
    [ ("asset", JObj [("version", JStr "2.0")]);
      ("images", JArr [JObj [("uri", JStr "wood.png")]]);
      ("samplers", JArr [JObj []]);
      ("textures", JArr [JObj [("source", accessor 0); ("sampler", accessor 0)]]);
      ("materials",
        JArr
          [ JObj
              [ ("name", JStr "wood");
                ("pbrMetallicRoughness",
                  JObj [ ("baseColorTexture", JObj [("index", accessor 0)]);
                         ("metallicFactor", JNum 0.5) ]);
                ("normalTexture", JObj [("index", accessor 0)]) ] ]);
      ("meshes",
        JArr
          [ JObj
              [ ("primitives",
                  JArr
                    [ JObj
                        [ ("attributes",
                            JObj [ ("POSITION", accessor 0);
                                   ("NORMAL", accessor 1);
                                   ("TEXCOORD_0", accessor 2) ]);
                          ("indices", accessor 3);
                          ("material", accessor 0);
                          ("mode", accessor 4) ] ]) ] ]) ].

(** A scene without materials or textures whose mesh still carries normals. *)
Definition bare_lit_scene : json :=
  JObj
    [ ("meshes",
        JArr
          [ JObj
              [ ("primitives",
                  JArr
                    [ JObj
                        [ ("attributes",
                            JObj [ ("POSITION", accessor 0);
                                   ("NORMAL", accessor 1) ]);
                          ("indices", accessor 2) ] ]) ] ]) ].

(** A scene with positions and connectivity only. *)
Definition wireframe_scene : json :=
  JObj
    [ ("asset", JObj [("version", JStr "2.0")]);
      ("meshes",
        JArr
          [ JObj
              [ ("primitives",
                  JArr
                    [ JObj
                        [ ("attributes", JObj [("POSITION", accessor 0)]);
                          ("indices", accessor 1) ] ]) ] ]) ].

(** A material whose only content is a base-colour texture reference. *)
Definition base_color_only (texture : json) : json :=
  JObj [("pbrMetallicRoughness", JObj [("baseColorTexture", texture)])].

Definition one_material (mat : json) : json :=
  JObj [("materials", JArr [mat])].

End Stripper.

(** ** The studio viewer *)

Module Viewer.

(** *** JavaScript numbers

    The viewer computes with JavaScript numbers.  The operations it uses are
    gathered in an interface, so that what does not depend on the arithmetic
    is stated for every implementation of it; the numeric claims are settled
    on the real numbers ([RNumber] below), which idealise IEEE doubles. *)
Class Number (num : Type) : Type := {
  literal : Q -> num;
  num_add : num -> num -> num;
  num_sub : num -> num -> num;
  num_mul : num -> num -> num;
  num_div : num -> num -> num;
  num_lt : num -> num -> bool;
  truthy : num -> bool;
  Math_PI : num;
  Math_atan : num -> num;
  Math_sqrt : num -> num;
  Math_max : num -> num -> num;
  Math_min : num -> num -> num
}.

Declare Scope num_scope.
Delimit Scope num_scope with num.
Notation "a + b" := (num_add a b) : num_scope.
Notation "a - b" := (num_sub a b) : num_scope.
Notation "a * b" := (num_mul a b) : num_scope.
Notation "a / b" := (num_div a b) : num_scope.
Notation "a < b" := (num_lt a b) : num_scope.

(** *** The library's data, as far as the viewer reads and writes it *)

Record Vector3 (num : Type) : Type := vec3 { x : num; y : num; z : num }.
Arguments vec3 {num} x y z.
Arguments x {num} v.
Arguments y {num} v.
Arguments z {num} v.

(** A [Box3] is empty when it is created: its corners are then at opposite
    infinities, which is written [Box3_empty] here. *)
Inductive Box3 (num : Type) : Type :=
| Box3_empty
| Box3_span (min max : Vector3 num).
Arguments Box3_empty {num}.
Arguments Box3_span {num} min max.

(** A scene object, seen through the world-space box of its geometry; the
    box of an object without geometry is empty. *)
Record Object3D (num : Type) : Type := object3d { worldBox : Box3 num }.
Arguments object3d {num} worldBox.
Arguments worldBox {num} o.

(** What the viewer calls in the library without the repository defining it:
    the projection matrix of a perspective camera, the rotation that makes a
    camera at [eye] look at a point, and [OrbitControls.update], which
    reads the distance limit, the target and the camera position and writes
    its private state, the target, the camera position and its rotation. *)
Class Library (num : Type) : Type := {
  Projection : Type;
  Rotation : Type;
  Orbit : Type;
  makePerspective : num -> num -> num -> num -> Projection;
  lookAtFrom : Vector3 num -> Vector3 num -> Rotation;
  orbit_update :
    Orbit -> num -> Vector3 num -> Vector3 num ->
    Orbit * Vector3 num * Vector3 num * Rotation
}.

Record PerspectiveCamera (num : Type) (L : Library num) : Type := {
  position : Vector3 num;
  quaternion : Rotation;
  fov : num;
  aspect : num;
  near : num;
  far : num;
  projectionMatrix : Projection
}.
Arguments position {num L} p.
Arguments quaternion {num L} p.
Arguments fov {num L} p.
Arguments aspect {num L} p.
Arguments near {num L} p.
Arguments far {num L} p.
Arguments projectionMatrix {num L} p.

Record OrbitControls (num : Type) (L : Library num) : Type := {
  target : Vector3 num;
  maxDistance : num;
  orbit : Orbit
}.
Arguments target {num L} o.
Arguments maxDistance {num L} o.
Arguments orbit {num L} o.

(** The fields of [StudioViewer] the two methods use. *)
Record StudioViewer (num : Type) (L : Library num) : Type := {
  camera : PerspectiveCamera num L;
  controls : OrbitControls num L;
  model : option (Object3D num)
}.
Arguments camera {num L} s.
Arguments controls {num L} s.
Arguments model {num L} s.

(** The values [fitCameraToSelection] computes and assigns. *)
Record Framing (num : Type) : Type := {
  maxSize : num;
  fitHeightDistance : num;
  fitWidthDistance : num;
  distance : num;
  center : Vector3 num;
  direction : Vector3 num;
  new_maxDistance : num;
  new_target : Vector3 num;
  new_near : num;
  new_far : num;
  new_position : Vector3 num
}.
Arguments maxSize {num} f.
Arguments fitHeightDistance {num} f.
Arguments fitWidthDistance {num} f.
Arguments distance {num} f.
Arguments center {num} f.
Arguments direction {num} f.
Arguments new_maxDistance {num} f.
Arguments new_target {num} f.
Arguments new_near {num} f.
Arguments new_far {num} f.
Arguments new_position {num} f.

Section Code.
Context {num : Type} {N : Number num} {L : Library num}.
Local Open Scope num_scope.

(** **** Vector3 and Box3 *)

Definition origin : Vector3 num := vec3 (literal 0) (literal 0) (literal 0).

Definition Vector3_sub (a b : Vector3 num) : Vector3 num :=
  vec3 (x a - x b) (y a - y b) (z a - z b).

Definition Vector3_add (a b : Vector3 num) : Vector3 num :=
  vec3 (x a + x b) (y a + y b) (z a + z b).

Definition multiplyScalar (a : Vector3 num) (s : num) : Vector3 num :=
  vec3 (x a * s) (y a * s) (z a * s).

Definition divideScalar (a : Vector3 num) (s : num) : Vector3 num :=
  multiplyScalar a (literal 1 / s).

Definition length (a : Vector3 num) : num :=
  Math_sqrt (x a * x a + y a * y a + z a * z a).

(** [normalize] divides by [length() || 1]. *)
Definition normalize (a : Vector3 num) : Vector3 num :=
  divideScalar a (if truthy (length a) then length a else literal 1).

Definition Vector3_min (a b : Vector3 num) : Vector3 num :=
  vec3 (Math_min (x a) (x b)) (Math_min (y a) (y b)) (Math_min (z a) (z b)).

Definition Vector3_max (a b : Vector3 num) : Vector3 num :=
  vec3 (Math_max (x a) (x b)) (Math_max (y a) (y b)) (Math_max (z a) (z b)).

Definition union (a b : Box3 num) : Box3 num :=
  match a, b with
  | Box3_empty, _ => b
  | _, Box3_empty => a
  | Box3_span amin amax, Box3_span bmin bmax =>
      Box3_span (Vector3_min amin bmin) (Vector3_max amax bmax)
  end.

Definition expandByObject (box : Box3 num) (object : Object3D num)
  : Box3 num :=
  union box (worldBox object).

Definition isEmpty (box : Box3 num) : bool :=
  match box with
  | Box3_empty => true
  | Box3_span bmin bmax =>
      (x bmax < x bmin) || (y bmax < y bmin) || (z bmax < z bmin)
  end.

Definition getSize (box : Box3 num) : Vector3 num :=
  match box with
  | Box3_empty => origin
  | Box3_span bmin bmax =>
      if isEmpty box then origin else Vector3_sub bmax bmin
  end.

Definition getCenter (box : Box3 num) : Vector3 num :=
  match box with
  | Box3_empty => origin
  | Box3_span bmin bmax =>
      if isEmpty box then origin
      else multiplyScalar (Vector3_add bmin bmax) (literal 0.5)
  end.

(** **** fitCameraToSelection *)

(** The parameter [fitOffset = 1.2]: [None] is a call that leaves it out. *)
Definition fitOffset_or_default (fitOffset : option num) : num :=
  match fitOffset with
  | Some f => f
  | None => literal 1.2
  end.

(** Lines 123-147: the constants of the method and the values it assigns. *)
Definition fit (camera : PerspectiveCamera num L)
    (controls : OrbitControls num L) (selection : list (Object3D num))
    (fitOffset : option num) : Framing num :=
  let fitOffset := fitOffset_or_default fitOffset in
  let box := fold_left expandByObject selection Box3_empty in
  let size := getSize box in
  let center := getCenter box in
  let maxSize := Math_max (Math_max (x size) (y size)) (z size) in
  let fitHeightDistance :=
    maxSize / (literal 2 * Math_atan (Math_PI * fov camera / literal 360)) in
  let fitWidthDistance := fitHeightDistance / aspect camera in
  let distance := fitOffset * Math_max fitHeightDistance fitWidthDistance in
  let direction :=
    multiplyScalar
      (normalize (Vector3_sub (target controls) (position camera)))
      distance in
  {| maxSize := maxSize;
     fitHeightDistance := fitHeightDistance;
     fitWidthDistance := fitWidthDistance;
     distance := distance;
     center := center;
     direction := direction;
     new_maxDistance := distance * literal 10;
     new_target := center;
     new_near := distance / literal 100;
     new_far := distance * literal 100;
     new_position := Vector3_sub center direction |}.

(** [controls.update()] on a camera and its controls. *)
Definition update (camera : PerspectiveCamera num L)
    (controls : OrbitControls num L)
  : PerspectiveCamera num L * OrbitControls num L :=
  let '(o, t, p, q) :=
    orbit_update (orbit controls) (maxDistance controls) (target controls)
      (position camera) in
  ({| position := p; quaternion := q; fov := fov camera;
      aspect := aspect camera; near := near camera; far := far camera;
      projectionMatrix := projectionMatrix camera |},
   {| target := t; maxDistance := maxDistance controls; orbit := o |}).

Definition updateProjectionMatrix (camera : PerspectiveCamera num L)
  : PerspectiveCamera num L :=
  {| position := position camera; quaternion := quaternion camera;
     fov := fov camera; aspect := aspect camera; near := near camera;
     far := far camera;
     projectionMatrix :=
       makePerspective (fov camera) (aspect camera) (near camera)
         (far camera) |}.

(** Lines 122-150.  The method has no [throw] and the library calls it makes
    do not throw either, so it always completes normally. *)
Definition fitCameraToSelection (camera : PerspectiveCamera num L)
    (controls : OrbitControls num L) (selection : list (Object3D num))
    (fitOffset : option num)
  : completion (PerspectiveCamera num L * OrbitControls num L) :=
  let f := fit camera controls selection fitOffset in
  let controls :=
    {| target := new_target f; maxDistance := new_maxDistance f;
       orbit := orbit controls |} in
  let camera :=
    updateProjectionMatrix
      {| position := position camera; quaternion := quaternion camera;
         fov := fov camera; aspect := aspect camera;
         near := new_near f; far := new_far f;
         projectionMatrix := projectionMatrix camera |} in
  let camera :=
    {| position := new_position f; quaternion := quaternion camera;
       fov := fov camera; aspect := aspect camera; near := near camera;
       far := far camera; projectionMatrix := projectionMatrix camera |} in
  Normal (update camera controls).

(** **** setCameraView *)

Definition set_position (camera : PerspectiveCamera num L)
    (px py pz : num) : PerspectiveCamera num L :=
  {| position := vec3 px py pz; quaternion := quaternion camera;
     fov := fov camera; aspect := aspect camera; near := near camera;
     far := far camera; projectionMatrix := projectionMatrix camera |}.

Definition lookAt (camera : PerspectiveCamera num L) (point : Vector3 num)
  : PerspectiveCamera num L :=
  {| position := position camera;
     quaternion := lookAtFrom (position camera) point;
     fov := fov camera; aspect := aspect camera; near := near camera;
     far := far camera; projectionMatrix := projectionMatrix camera |}.

(** Lines 168-192. *)
Definition setCameraView (this : StudioViewer num L) (view : string)
  : completion (StudioViewer num L) :=
  match model this with
  | None => Normal this
  | Some _ =>
      let dist := literal 5 in
      let target := vec3 (literal 0) (literal 0) (literal 0) in
      let camera :=
        if String.eqb view "isometric" then
          set_position (camera this) dist dist dist
        else if String.eqb view "front" then
          set_position (camera this) (literal 0) (literal 0)
            (dist * literal 1.5)
        else if String.eqb view "top" then
          set_position (camera this) (literal 0) (dist * literal 1.5)
            (literal 0)
        else if String.eqb view "side" then
          set_position (camera this) (dist * literal 1.5) (literal 0)
            (literal 0)
        else camera this in
      let camera := lookAt camera target in
      let (camera, controls) := update camera (controls this) in
      Normal {| camera := camera; controls := controls; model := model this |}
  end.

End Code.

(** *** The other methods of the viewer *)

(** A view button: the tokens of its [classList] and its [data-view]. *)
Record Button : Type := {
  classList : list string;
  dataset_view : string
}.

(** [classList.remove(token)]. *)
Definition classList_remove (token : string) (b : Button) : Button :=
  {| classList := filter (fun c => negb (String.eqb token c)) (classList b);
     dataset_view := dataset_view b |}.

(** [classList.add(token)]: a token that is present is not added again. *)
Definition classList_add (token : string) (b : Button) : Button :=
  {| classList :=
       if existsb (String.eqb token) (classList b) then classList b
       else (classList b ++ [token])%list;
     dataset_view := dataset_view b |}.

(** The node list after a click on [target]. *)
Definition clicked (before : list Button) (target : Button)
    (after : list Button) : list Button :=
  (map (classList_remove "active") before
   ++ classList_add "active" (classList_remove "active" target)
   :: map (classList_remove "active") after)%list.

(** The view names [setCameraView] knows. *)
Definition view_names : list string := ["isometric"; "front"; "top"; "side"].

Section Handlers.
Context {num : Type} {N : Number num} {L : Library num}.
Local Open Scope num_scope.

(** The projection matrix is the one of the camera's current parameters. *)
Definition projection_current (camera : PerspectiveCamera num L) : Prop :=
  projectionMatrix camera
  = makePerspective (fov camera) (aspect camera) (near camera) (far camera).

(** Lines 194-198; [clientWidth] and [clientHeight] are what the container
    reports when the handler runs.  The renderer is outside the state. *)
Definition onWindowResize (this : StudioViewer num L)
    (clientWidth clientHeight : num) : StudioViewer num L :=
  {| camera :=
       updateProjectionMatrix
         {| position := position (camera this);
            quaternion := quaternion (camera this);
            fov := fov (camera this);
            aspect := clientWidth / clientHeight;
            near := near (camera this); far := far (camera this);
            projectionMatrix := projectionMatrix (camera this) |};
     controls := controls this;
     model := model this |}.

(** Lines 200-204, one frame: [controls.update()]; scheduling the next frame
    and rendering do not touch the state. *)
Definition animate (this : StudioViewer num L) : StudioViewer num L :=
  let (camera, controls) := update (camera this) (controls this) in
  {| camera := camera; controls := controls; model := model this |}.

(** Lines 155-164, the click handler of a view button; [target] is the
    button that was clicked, [before] and [after] are the other buttons of
    the node list. *)
Definition onClick (before : list Button) (target : Button)
    (after : list Button) (this : StudioViewer num L)
  : completion (list Button * StudioViewer num L) :=
  let before := map (classList_remove "active") before in
  let target := classList_remove "active" target in
  let after := map (classList_remove "active") after in
  let target := classList_add "active" target in
  let view := dataset_view target in
  this <- setCameraView this view ;;
  Normal ((before ++ target :: after)%list, this).

End Handlers.

(** *** Arithmetic with zero

    What the fit needs of the number zero when the view direction vanishes.
    The laws hold of the real numbers and of IEEE doubles alike; none of
    them says anything about a division by zero. *)
Class ZeroLaws (num : Type) (N : Number num) : Prop := {
  zero_mul_zero : (literal 0 * literal 0)%num = literal 0;
  zero_add_zero : (literal 0 + literal 0)%num = literal 0;
  sqrt_zero : Math_sqrt (literal 0) = literal 0;
  zero_is_falsy : truthy (literal 0) = false;
  zero_mul_unit : (literal 0 * (literal 1 / literal 1))%num = literal 0;
  sub_zero : forall c : num, (c - literal 0)%num = c
}.

(** *** The real numbers as numbers *)

#[export] Instance RNumber : Number R := {|
  literal := Q2R;
  num_add := Rplus;
  num_sub := Rminus;
  num_mul := Rmult;
  num_div := Rdiv;
  num_lt := fun a b => if Rlt_dec a b then true else false;
  truthy := fun a => if Req_dec_T a 0 then false else true;
  Math_PI := PI;
  Math_atan := atan;
  Math_sqrt := sqrt;
  Math_max := Rmax;
  Math_min := Rmin
|}.


(** A library instance for concrete runs: the projection is the tuple of its
    parameters, a rotation is the pair of eye and point looked at, and the
    controls have no pending interaction, so that [update] keeps the target
    and the position. *)
#[export] Instance StillLibrary : Library R := {|
  Projection := R * R * R * R;
  Rotation := Vector3 R * Vector3 R;
  Orbit := unit;
  makePerspective := fun f a n r => (f, a, n, r);
  lookAtFrom := fun eye point => (eye, point);
  orbit_update := fun o _ t p => (o, t, p, (p, t))
|}.

(** *** Sample inputs *)

Definition cube2 : Object3D R :=
  object3d (Box3_span (vec3 (-1) (-1) (-1)) (vec3 1 1 1))%R.

Definition point_object : Object3D R :=
  object3d (Box3_span (vec3 0 0 0) (vec3 0 0 0))%R.

(** The camera the constructor sets up, in a square viewport, and controls
    about the origin. *)
Definition camera0 : PerspectiveCamera R StillLibrary :=
  {| position := vec3 5 5 5; quaternion := (vec3 5 5 5, vec3 0 0 0);
     fov := 45; aspect := 1; near := 0.1; far := 1000;
     projectionMatrix := (45, 1, 0.1, 1000) |}%R.

Definition controls0 : OrbitControls R StillLibrary :=
  {| target := vec3 0 0 0; maxDistance := 1000; orbit := tt |}%R.

(** Controls whose target is where the camera is. *)
Definition controls_at_camera : OrbitControls R StillLibrary :=
  {| target := vec3 5 5 5; maxDistance := 1000; orbit := tt |}%R.

(** The same camera and controls after an earlier fit left other clip
    planes, another rotation and another distance limit behind. *)
Definition camera1 : PerspectiveCamera R StillLibrary :=
  {| position := vec3 5 5 5; quaternion := (vec3 0 0 9, vec3 1 1 1);
     fov := 45; aspect := 1; near := 2; far := 7;
     projectionMatrix := (45, 1, 2, 7) |}%R.

Definition controls1 : OrbitControls R StillLibrary :=
  {| target := vec3 0 0 0; maxDistance := 30; orbit := tt |}%R.

Definition viewer0 : StudioViewer R StillLibrary :=
  {| camera := camera0; controls := controls0; model := None |}.

(** A model loaded away from the origin. *)
Definition offcentre_object : Object3D R :=
  object3d (Box3_span (vec3 1 2 3) (vec3 3 6 4))%R.

Definition viewer_loaded : StudioViewer R StillLibrary :=
  {| camera := camera0; controls := controls0; model := Some cube2 |}.

(** The camera seen from elsewhere, with another rotation. *)
Definition camera_moved : PerspectiveCamera R StillLibrary :=
  {| position := vec3 1 2 3; quaternion := (vec3 0 0 9, vec3 1 1 1);
     fov := 45; aspect := 1; near := 0.1; far := 1000;
     projectionMatrix := (45, 1, 0.1, 1000) |}%R.

Definition viewer_moved : StudioViewer R StillLibrary :=
  {| camera := camera_moved; controls := controls0; model := Some cube2 |}.

Definition button (view : string) (active : bool) : Button :=
  {| classList := if active then ["cam-btn"; "active"] else ["cam-btn"];
     dataset_view := view |}.

End Viewer.

(** ** Facts about the asset stripper *)

Module StripperFacts.
Import Stripper.

(** *** Property lists *)

Lemma lookup_remove_eq k o : lookup k (remove k o) = None.
Proof.
  induction o as [|[k' v] o IH]; simpl; [reflexivity|].
  destruct (String.eqb k k') eqn:E; simpl; [exact IH|].
  rewrite E. exact IH.
Qed.

Lemma lookup_remove_ne k k' o :
  String.eqb k k' = false -> lookup k (remove k' o) = lookup k o.
Proof.
  intros N. induction o as [|[k1 v] o IH]; simpl; [reflexivity|].
  destruct (String.eqb k' k1) eqn:E; simpl.
  - apply String.eqb_eq in E. subst k1. rewrite N. exact IH.
  - rewrite IH. reflexivity.
Qed.

Lemma lookup_update_eq k g o :
  lookup k (update k g o) = option_map g (lookup k o).
Proof.
  induction o as [|[k' v] o IH]; simpl; [reflexivity|].
  destruct (String.eqb k k') eqn:E; simpl; rewrite E; [reflexivity|exact IH].
Qed.

Lemma lookup_update_ne k k' g o :
  String.eqb k k' = false -> lookup k (update k' g o) = lookup k o.
Proof.
  intros N. induction o as [|[k1 v] o IH]; simpl; [reflexivity|].
  destruct (String.eqb k' k1) eqn:E; simpl.
  - apply String.eqb_eq in E. subst k1. rewrite N. reflexivity.
  - rewrite IH. reflexivity.
Qed.

Lemma remove_absent k o : lookup k o = None -> remove k o = o.
Proof.
  induction o as [|[k' v] o IH]; simpl; [reflexivity|].
  destruct (String.eqb k k') eqn:E; simpl; [discriminate|].
  intros H. rewrite (IH H). reflexivity.
Qed.

Lemma update_fixed k g o :
  (forall c, lookup k o = Some c -> g c = c) -> update k g o = o.
Proof.
  induction o as [|[k' v] o IH]; simpl; [reflexivity|].
  destruct (String.eqb k k') eqn:E; intros H.
  - rewrite (H v eq_refl). reflexivity.
  - rewrite (IH H). reflexivity.
Qed.

Lemma update_found k g o c :
  lookup k o = Some c -> update k (fun _ => g c) o = update k g o.
Proof.
  induction o as [|[k' v] o IH]; simpl; [reflexivity|].
  destruct (String.eqb k k') eqn:E; intros H.
  - injection H as ->. reflexivity.
  - rewrite (IH H). reflexivity.
Qed.

(** *** The combinators, seen through [prop] *)

Lemma prop_erase_eq k v : prop (erase k v) k = None.
Proof. destruct v; simpl; try reflexivity. apply lookup_remove_eq. Qed.

Lemma prop_erase_ne k k' v :
  String.eqb k k' = false -> prop (erase k' v) k = prop v k.
Proof. intros N. destruct v; simpl; try reflexivity. now apply lookup_remove_ne. Qed.

Lemma prop_in_field_eq k g v :
  prop (in_field k g v) k = option_map g (prop v k).
Proof. destruct v; simpl; try reflexivity. apply lookup_update_eq. Qed.

Lemma prop_in_field_ne k k' g v :
  String.eqb k k' = false -> prop (in_field k' g v) k = prop v k.
Proof. intros N. destruct v; simpl; try reflexivity. now apply lookup_update_ne. Qed.

Lemma erase_absent k v : prop v k = None -> erase k v = v.
Proof.
  destruct v; simpl; try reflexivity.
  intros H. rewrite (remove_absent _ _ H). reflexivity.
Qed.

Lemma in_field_fixed k g v :
  (forall c, prop v k = Some c -> g c = c) -> in_field k g v = v.
Proof.
  destruct v; simpl; try reflexivity.
  intros H. rewrite (update_fixed _ _ _ H). reflexivity.
Qed.

Lemma map_fixed (g : json -> json) l :
  (forall x, In x l -> g x = x) -> map g l = l.
Proof.
  induction l as [|x l IH]; simpl; intros H; [reflexivity|].
  rewrite (H x (or_introl eq_refl)), IH; [reflexivity|].
  intros y Hy. apply H. now right.
Qed.

Lemma not_null_erase k v : not_null (erase k v) = not_null v.
Proof. destruct v; reflexivity. Qed.

Lemma not_null_erase_all ks v : not_null (erase_all ks v) = not_null v.
Proof.
  revert v. induction ks as [|k ks IH]; intros v; simpl; [reflexivity|].
  unfold erase_all in IH. rewrite IH. apply not_null_erase.
Qed.

Lemma not_null_in_field k g v : not_null (in_field k g v) = not_null v.
Proof. destruct v; reflexivity. Qed.

Lemma not_null_in_each g v : not_null (in_each g v) = not_null v.
Proof. destruct v; reflexivity. Qed.

Lemma truthy_not_null v : ToBoolean (Some v) = true -> not_null v = true.
Proof. destruct v; simpl; intros H; try reflexivity. discriminate. Qed.

(** *** The script computes the reduction, where it does not throw *)

Lemma deleteProp_erase v k :
  deleteProp v k = if not_null v then Normal (erase k v) else Throw "TypeError".
Proof. destruct v; reflexivity. Qed.

Lemma forEach_map (f : json -> completion json) (ok : json -> bool)
    (g : json -> json) (l : list json) :
  (forall x, f x = if ok x then Normal (g x) else Throw "TypeError") ->
  forEach f l = if forallb ok l then Normal (map g l) else Throw "TypeError".
Proof.
  intros Hf. induction l as [|x l IH]; simpl; [reflexivity|].
  rewrite Hf. destruct (ok x); simpl; [|reflexivity].
  rewrite IH. destruct (forallb ok l); reflexivity.
Qed.

Lemma callForEach_in_each (f : json -> completion json) (ok : json -> bool)
    (g : json -> json) (c : json) :
  (forall x, f x = if ok x then Normal (g x) else Throw "TypeError") ->
  callForEach (Some c) f =
  if is_array_of ok c then Normal (in_each g c) else Throw "TypeError".
Proof.
  intros Hf. destruct c; simpl; try reflexivity.
  rewrite (forEach_map f ok g _ Hf). destruct (forallb ok elems); reflexivity.
Qed.

Lemma whenProp_in_field (v : json) (k : string)
    (body : option json -> completion json) (ok : json -> bool)
    (g : json -> json) :
  (forall c, ToBoolean (Some c) = true ->
     body (Some c) = if ok c then Normal (g c) else Throw "TypeError") ->
  (forall c, ToBoolean (Some c) = false -> g c = c) ->
  whenProp v k body =
  if not_null v && guard ok (prop v k)
  then Normal (in_field k g v) else Throw "TypeError".
Proof.
  intros Hbody Hfalsy.
  destruct v; try reflexivity.
  cbv beta iota delta [whenProp getProp bind putProp prop in_field guard
                       not_null andb].
  destruct (lookup k props) as [c|] eqn:L.
  - destruct (ToBoolean (Some c)) eqn:T.
    + rewrite (Hbody c T). destruct (ok c); [|reflexivity].
      rewrite (update_found k g props c L). reflexivity.
    + rewrite update_fixed; [reflexivity|].
      intros c' Hc'. rewrite L in Hc'. injection Hc' as <-. now apply Hfalsy.
  - change (ToBoolean None) with false. cbv iota.
    rewrite update_fixed; [reflexivity|].
    intros c' Hc'. rewrite L in Hc'. discriminate.
Qed.

Lemma falsy_erase_all ks c :
  ToBoolean (Some c) = false -> erase_all ks c = c.
Proof.
  intros F. destruct c; try discriminate F;
    induction ks as [|k ks IH]; simpl; auto.
Qed.

Lemma falsy_in_each g c : ToBoolean (Some c) = false -> in_each g c = c.
Proof. intros F. destruct c; try discriminate F; reflexivity. Qed.

Lemma guard_true c : guard (fun _ => true) c = true.
Proof. destruct c as [c|]; [|reflexivity]. unfold guard. now destruct ToBoolean. Qed.

Lemma strip_pbr_erase c :
  ToBoolean (Some c) = true ->
  strip_pbr (Some c) = Normal (erase_all pbr_textures c).
Proof.
  intros T. apply truthy_not_null in T. unfold strip_pbr.
  rewrite deleteProp_erase, T. cbn [bind].
  rewrite deleteProp_erase, not_null_erase, T. reflexivity.
Qed.

Lemma strip_attributes_erase c :
  ToBoolean (Some c) = true ->
  strip_attributes (Some c) = Normal (erase_all wireframe_unused c).
Proof.
  intros T. apply truthy_not_null in T. unfold strip_attributes.
  repeat (rewrite deleteProp_erase, ?not_null_erase, T; cbn [bind]).
  reflexivity.
Qed.

Lemma strip_mat_spec mat :
  strip_mat mat =
  if not_null mat then Normal (spec_material mat) else Throw "TypeError".
Proof.
  unfold strip_mat.
  rewrite (whenProp_in_field _ _ _ (fun _ => true) _
             strip_pbr_erase (falsy_erase_all _)).
  rewrite guard_true, andb_true_r.
  destruct (not_null mat) eqn:N; [|reflexivity]. cbn [bind].
  repeat (rewrite deleteProp_erase, ?not_null_erase, ?not_null_in_field, N;
          cbn [bind]).
  reflexivity.
Qed.

Lemma strip_primitive_spec primitive :
  strip_primitive primitive =
  if not_null primitive then Normal (spec_primitive primitive)
  else Throw "TypeError".
Proof.
  unfold strip_primitive.
  rewrite (whenProp_in_field _ _ _ (fun _ => true) _
             strip_attributes_erase (falsy_erase_all _)).
  rewrite guard_true, andb_true_r. reflexivity.
Qed.

Lemma strip_mesh_spec mesh :
  strip_mesh mesh =
  if mesh_defined mesh then Normal (spec_mesh mesh) else Throw "TypeError".
Proof.
  unfold strip_mesh, mesh_defined.
  apply whenProp_in_field.
  - intros c _. apply callForEach_in_each, strip_primitive_spec.
  - apply falsy_in_each.
Qed.

Lemma prop_erase_all_ne k ks v :
  not_among k ks = true ->
  prop (erase_all ks v) k = prop v k.
Proof.
  unfold not_among.
  revert v. induction ks as [|k' ks IH]; intros v H; simpl in *; [reflexivity|].
  apply andb_true_iff in H as [H1 H2]. apply negb_true_iff in H1.
  unfold erase_all in IH. rewrite (IH _ H2). now apply prop_erase_ne.
Qed.

(** The script and the reduction agree on every document: the script throws
    outside [strip_defined] and returns [strip_spec] inside it. *)
Lemma optimize_strip_spec gltf :
  optimize_strip gltf =
  if strip_defined gltf then Normal (strip_spec gltf) else Throw "TypeError".
Proof.
  unfold optimize_strip, strip_defined, strip_spec.
  destruct (not_null gltf) eqn:N; [|destruct gltf; try discriminate N; reflexivity].
  repeat (rewrite deleteProp_erase, ?not_null_erase, N; cbn [bind]).
  change (erase "samplers" (erase "textures" (erase "images" gltf)))
    with (erase_all texture_tables gltf).
  set (g1 := erase_all texture_tables gltf).
  rewrite (whenProp_in_field g1 "materials" _ (is_array_of not_null)
             (in_each spec_material)).
  2:{ intros c _. apply callForEach_in_each, strip_mat_spec. }
  2:{ apply falsy_in_each. }
  assert (P1 : prop g1 "materials" = prop gltf "materials")
    by (apply prop_erase_all_ne; reflexivity).
  assert (P2 : prop (in_field "materials" (in_each spec_material) g1) "meshes"
               = prop gltf "meshes").
  { rewrite prop_in_field_ne by reflexivity.
    apply prop_erase_all_ne; reflexivity. }
  rewrite P1. unfold g1 at 1. rewrite not_null_erase_all, N. cbn [andb].
  destruct (guard (is_array_of not_null) (prop gltf "materials"));
    [|reflexivity].
  cbn [bind].
  rewrite (whenProp_in_field _ "meshes" _ (is_array_of mesh_defined)
             (in_each spec_mesh)).
  2:{ intros c _. apply callForEach_in_each, strip_mesh_spec. }
  2:{ apply falsy_in_each. }
  rewrite P2, not_null_in_field. unfold g1 at 1.
  rewrite not_null_erase_all, N. reflexivity.
Qed.

(** *** What the reduction leaves behind *)

Lemma forallb_pointwise {A : Type} (p q : A -> bool) l :
  (forall x, p x = q x) -> forallb p l = forallb q l.
Proof. intros H. induction l as [|x l IH]; simpl; [reflexivity|]. now rewrite H, IH. Qed.

Lemma forallb_over_map {A B : Type} (p : B -> bool) (g : A -> B) l :
  forallb p (map g l) = forallb (fun x => p (g x)) l.
Proof. induction l as [|x l IH]; simpl; [reflexivity|]. now rewrite IH. Qed.

Lemma prop_spec_materials x :
  prop (strip_spec x) "materials"
  = option_map (in_each spec_material) (prop x "materials").
Proof.
  unfold strip_spec.
  rewrite prop_in_field_ne by reflexivity. rewrite prop_in_field_eq.
  rewrite prop_erase_all_ne by reflexivity. reflexivity.
Qed.

Lemma prop_spec_meshes x :
  prop (strip_spec x) "meshes"
  = option_map (in_each spec_mesh) (prop x "meshes").
Proof.
  unfold strip_spec. rewrite prop_in_field_eq.
  rewrite prop_in_field_ne by reflexivity.
  rewrite prop_erase_all_ne by reflexivity. reflexivity.
Qed.

Lemma has_key_erase k k' v :
  has_key k (erase k' v) = has_key k v && negb (String.eqb k k').
Proof.
  unfold has_key. destruct (String.eqb k k') eqn:E.
  - apply String.eqb_eq in E. subst k'. rewrite prop_erase_eq.
    now rewrite andb_false_r.
  - rewrite (prop_erase_ne _ _ _ E). now rewrite andb_true_r.
Qed.

Lemma has_key_erase_all k ks v :
  has_key k (erase_all ks v)
  = has_key k v && forallb (fun k' => negb (String.eqb k k')) ks.
Proof.
  revert v. induction ks as [|k' ks IH]; intros v; simpl.
  - now rewrite andb_true_r.
  - unfold erase_all in IH. rewrite IH, has_key_erase, andb_assoc. reflexivity.
Qed.

Lemma has_key_in_field k f g v : has_key k (in_field f g v) = has_key k v.
Proof.
  unfold has_key. destruct (String.eqb k f) eqn:E.
  - apply String.eqb_eq in E. subst f. rewrite prop_in_field_eq.
    now destruct (prop v k).
  - now rewrite (prop_in_field_ne _ _ _ _ E).
Qed.

Lemma lacks_in_field ks f g v : lacks ks (in_field f g v) = lacks ks v.
Proof.
  unfold lacks. apply forallb_pointwise. intros k. now rewrite has_key_in_field.
Qed.

Lemma lacks_erase_all ks v : lacks ks (erase_all ks v) = true.
Proof.
  unfold lacks. apply forallb_forall. intros k Hk.
  rewrite has_key_erase_all.
  assert (F : forallb (fun k' => negb (String.eqb k k')) ks = false).
  { apply not_true_is_false. intros H.
    rewrite forallb_forall in H. specialize (H k Hk).
    now rewrite String.eqb_refl in H. }
  rewrite F, andb_false_r. reflexivity.
Qed.

Lemma lacks_erase_all_other ks ks' v :
  lacks ks v = true -> lacks ks (erase_all ks' v) = true.
Proof.
  unfold lacks. rewrite !forallb_forall. intros H k Hk.
  specialize (H k Hk). rewrite has_key_erase_all.
  apply negb_true_iff in H. now rewrite H.
Qed.

Lemma optional_map p g c :
  (forall x : json, p (g x) = true) -> optional p (option_map g c) = true.
Proof. intros H. destruct c; simpl; auto. Qed.

Lemma each_map p g c :
  (forall x : json, p (g x) = true) ->
  each p (option_map (in_each g) c) = true.
Proof.
  intros H. destruct c as [[]|]; simpl; try reflexivity.
  rewrite forallb_over_map. apply forallb_forall. intros x _. apply H.
Qed.

Lemma spec_material_stripped mat : material_stripped (spec_material mat) = true.
Proof.
  unfold material_stripped, spec_material.
  rewrite lacks_erase_all. cbn [andb].
  rewrite prop_erase_all_ne by reflexivity. rewrite prop_in_field_eq.
  apply optional_map. intros p. apply lacks_erase_all.
Qed.

Lemma spec_primitive_stripped primitive :
  primitive_stripped (spec_primitive primitive) = true.
Proof.
  unfold primitive_stripped, spec_primitive. rewrite prop_in_field_eq.
  apply optional_map. intros a. apply lacks_erase_all.
Qed.

Lemma spec_mesh_stripped mesh : mesh_stripped (spec_mesh mesh) = true.
Proof.
  unfold mesh_stripped, spec_mesh. rewrite prop_in_field_eq.
  apply each_map, spec_primitive_stripped.
Qed.

Lemma strip_spec_stripped x : stripped (strip_spec x) = true.
Proof.
  unfold stripped. rewrite prop_spec_materials, prop_spec_meshes.
  rewrite (each_map _ _ _ spec_material_stripped).
  rewrite (each_map _ _ _ spec_mesh_stripped).
  unfold strip_spec. rewrite !lacks_in_field, lacks_erase_all. reflexivity.
Qed.

(** *** A stripped document is a fixed point of the reduction *)

Lemma erase_all_fixed ks v : lacks ks v = true -> erase_all ks v = v.
Proof.
  unfold lacks. induction ks as [|k ks IH]; simpl; intros H; [reflexivity|].
  apply andb_true_iff in H as [H1 H2].
  rewrite erase_absent; [now apply IH|].
  unfold has_key in H1. now destruct (prop v k).
Qed.

Lemma in_field_optional_fixed k p g v :
  (forall x : json, p x = true -> g x = x) ->
  optional p (prop v k) = true -> in_field k g v = v.
Proof.
  intros Hg H. apply in_field_fixed. intros c Hc.
  rewrite Hc in H. now apply Hg.
Qed.

Lemma in_field_each_fixed k p g v :
  (forall x : json, p x = true -> g x = x) ->
  each p (prop v k) = true -> in_field k (in_each g) v = v.
Proof.
  intros Hg H. apply in_field_fixed. intros c Hc. rewrite Hc in H.
  destruct c; simpl in *; try reflexivity.
  rewrite map_fixed; [reflexivity|].
  intros x Hx. apply Hg. rewrite forallb_forall in H. now apply H.
Qed.

Lemma spec_material_fixed mat :
  material_stripped mat = true -> spec_material mat = mat.
Proof.
  unfold material_stripped, spec_material. intros H.
  apply andb_true_iff in H as [H1 H2].
  rewrite (in_field_optional_fixed _ _ _ _ (erase_all_fixed pbr_textures) H2).
  now apply erase_all_fixed.
Qed.

Lemma spec_primitive_fixed primitive :
  primitive_stripped primitive = true -> spec_primitive primitive = primitive.
Proof.
  unfold primitive_stripped, spec_primitive.
  apply in_field_optional_fixed, erase_all_fixed.
Qed.

Lemma spec_mesh_fixed mesh : mesh_stripped mesh = true -> spec_mesh mesh = mesh.
Proof.
  unfold mesh_stripped, spec_mesh.
  apply in_field_each_fixed, spec_primitive_fixed.
Qed.

Lemma strip_spec_fixed y : stripped y = true -> strip_spec y = y.
Proof.
  unfold stripped, strip_spec. intros H.
  apply andb_true_iff in H as [H H3]. apply andb_true_iff in H as [H1 H2].
  rewrite (erase_all_fixed _ _ H1).
  rewrite (in_field_each_fixed _ _ _ _ spec_material_fixed H2).
  apply (in_field_each_fixed _ _ _ _ spec_mesh_fixed H3).
Qed.

(** *** The reduction keeps a document inside the script's domain *)

Lemma guard_map ok g c :
  (forall x : json, ok (g x) = ok x) ->
  guard (is_array_of ok) (option_map (in_each g) c)
  = guard (is_array_of ok) c.
Proof.
  intros H. destruct c as [c|]; [|reflexivity].
  destruct c; try reflexivity. simpl.
  rewrite forallb_over_map. apply forallb_pointwise. intros x. apply H.
Qed.

Lemma not_null_spec_material mat : not_null (spec_material mat) = not_null mat.
Proof.
  unfold spec_material. now rewrite not_null_erase_all, not_null_in_field.
Qed.

Lemma mesh_defined_spec mesh : mesh_defined (spec_mesh mesh) = mesh_defined mesh.
Proof.
  unfold mesh_defined, spec_mesh.
  rewrite not_null_in_field, prop_in_field_eq.
  rewrite guard_map; [reflexivity|].
  intros p. apply not_null_in_field.
Qed.

Lemma strip_defined_spec x : strip_defined (strip_spec x) = strip_defined x.
Proof.
  unfold strip_defined. rewrite prop_spec_materials, prop_spec_meshes.
  rewrite (guard_map _ _ _ not_null_spec_material).
  rewrite (guard_map _ _ _ mesh_defined_spec).
  unfold strip_spec.
  now rewrite !not_null_in_field, not_null_erase_all.
Qed.

(** *** Scene descriptions lie inside the script's domain *)

Lemma is_object_not_null v : is_object v = true -> not_null v = true.
Proof. now destruct v. Qed.

Lemma optional_guard p ok c :
  (forall x : json, p x = true -> ok x = true) ->
  optional p c = true -> guard ok c = true.
Proof.
  intros H O. destruct c as [c|]; [|reflexivity].
  unfold guard. destruct (ToBoolean (Some c)); [|reflexivity]. now apply H.
Qed.

Lemma is_array_of_weaken (p q : json -> bool) v :
  (forall x, p x = true -> q x = true) ->
  is_array_of p v = true -> is_array_of q v = true.
Proof.
  intros H. destruct v; simpl; try discriminate.
  rewrite !forallb_forall. intros A x Hx. apply H, A, Hx.
Qed.

Lemma is_material_not_null mat : is_material mat = true -> not_null mat = true.
Proof.
  unfold is_material. intros H. apply andb_true_iff in H as [H _].
  now apply is_object_not_null.
Qed.

Lemma is_primitive_not_null p : is_primitive p = true -> not_null p = true.
Proof.
  unfold is_primitive. intros H. apply andb_true_iff in H as [H _].
  now apply is_object_not_null.
Qed.

Lemma is_mesh_defined mesh : is_mesh mesh = true -> mesh_defined mesh = true.
Proof.
  unfold is_mesh, mesh_defined. intros H. apply andb_true_iff in H as [H1 H2].
  rewrite (is_object_not_null _ H1). cbn [andb].
  refine (optional_guard _ _ _ _ H2).
  intros v. apply is_array_of_weaken, is_primitive_not_null.
Qed.

Lemma is_scene_defined scene :
  is_scene scene = true -> strip_defined scene = true.
Proof.
  unfold is_scene, strip_defined. intros H.
  apply andb_true_iff in H as [H H3]. apply andb_true_iff in H as [H1 H2].
  rewrite (is_object_not_null _ H1). cbn [andb].
  rewrite (optional_guard _ (is_array_of not_null) _
             (fun v => is_array_of_weaken _ _ v is_material_not_null) H2).
  cbn [andb].
  apply (optional_guard _ (is_array_of mesh_defined) _
           (fun v => is_array_of_weaken _ _ v is_mesh_defined) H3).
Qed.

(** *** The frame of the reduction *)

Lemma erase_all_other ks v : is_object v = false -> erase_all ks v = v.
Proof.
  intros H. destruct v; try discriminate H;
    induction ks as [|k ks IH]; simpl; auto.
Qed.

Lemma erase_all_object ks o : exists o', erase_all ks (JObj o) = JObj o'.
Proof. revert o. induction ks as [|k ks IH]; intros o; simpl; eauto. Qed.

Lemma child_erase_all st ks v :
  match st with Key k => not_among k ks | Index _ => true end = true ->
  child st (erase_all ks v) = child st v.
Proof.
  destruct st as [k|i]; simpl; intros H.
  - now apply prop_erase_all_ne.
  - destruct (is_object v) eqn:O.
    + destruct v; try discriminate O.
      destruct (erase_all_object ks props) as [o' ->]. reflexivity.
    + now rewrite erase_all_other.
Qed.

Lemma child_in_field_eq k g v :
  child (Key k) (in_field k g v) = option_map g (child (Key k) v).
Proof. apply prop_in_field_eq. Qed.

Lemma child_in_field_ne st f g v :
  match st with Key k => negb (String.eqb k f) | Index _ => true end = true ->
  child st (in_field f g v) = child st v.
Proof.
  destruct st as [k|i]; simpl; intros H.
  - apply negb_true_iff in H. now apply prop_in_field_ne.
  - now destruct v.
Qed.

Lemma child_in_each_index i g v :
  child (Index i) (in_each g v) = option_map g (child (Index i) v).
Proof. destruct v; simpl; try reflexivity. apply nth_error_map. Qed.

Lemma child_in_each_key k g v : child (Key k) (in_each g v) = child (Key k) v.
Proof. now destruct v. Qed.

Lemma child_descend s st s' v :
  descend s st = Some s' ->
  child st (reduce_at s v) = option_map (reduce_at s') (child st v).
Proof.
  destruct s, st as [k|i]; simpl; try discriminate.
  - destruct (String.eqb k "materials") eqn:E1;
      [|destruct (String.eqb k "meshes") eqn:E2; [|discriminate]];
      intros [= <-].
    + apply String.eqb_eq in E1. subst k. apply prop_spec_materials.
    + apply String.eqb_eq in E2. subst k. apply prop_spec_meshes.
  - intros [= <-]. apply (child_in_each_index i).
  - destruct (String.eqb k "pbrMetallicRoughness") eqn:E; [|discriminate].
    intros [= <-]. apply String.eqb_eq in E. subst k. unfold spec_material.
    rewrite prop_erase_all_ne by reflexivity. apply prop_in_field_eq.
  - intros [= <-]. apply (child_in_each_index i).
  - destruct (String.eqb k "primitives") eqn:E; [|discriminate].
    intros [= <-]. apply String.eqb_eq in E. subst k. apply prop_in_field_eq.
  - intros [= <-]. apply (child_in_each_index i).
  - destruct (String.eqb k "attributes") eqn:E; [|discriminate].
    intros [= <-]. apply String.eqb_eq in E. subst k. apply prop_in_field_eq.
Qed.

Lemma child_aside s st v :
  descend s st = None ->
  match st with Key k => not_among k (erased_at s) | Index _ => true end
  = true ->
  child st (reduce_at s v) = child st v.
Proof.
  destruct s; cbn [reduce_at erased_at]; intros D H.
  - (* the document *)
    unfold strip_spec. destruct st as [k|i].
    + cbn [descend] in D.
      destruct (String.eqb k "materials") eqn:E1; [discriminate|].
      destruct (String.eqb k "meshes") eqn:E2; [discriminate|].
      rewrite !child_in_field_ne by (cbn; now rewrite ?E1, ?E2).
      now apply child_erase_all.
    + rewrite !child_in_field_ne by reflexivity. now apply child_erase_all.
  - destruct st; [apply child_in_each_key|discriminate].
  - (* a material *)
    unfold spec_material. rewrite child_erase_all by exact H.
    destruct st as [k|i]; [|now apply child_in_field_ne].
    cbn [descend] in D.
    destruct (String.eqb k "pbrMetallicRoughness") eqn:E; [discriminate|].
    apply child_in_field_ne. cbn. now rewrite E.
  - now apply child_erase_all.
  - destruct st; [apply child_in_each_key|discriminate].
  - (* a mesh *)
    unfold spec_mesh. destruct st as [k|i]; [|now apply child_in_field_ne].
    cbn [descend] in D.
    destruct (String.eqb k "primitives") eqn:E; [discriminate|].
    apply child_in_field_ne. cbn. now rewrite E.
  - destruct st; [apply child_in_each_key|discriminate].
  - (* a primitive *)
    unfold spec_primitive. destruct st as [k|i]; [|now apply child_in_field_ne].
    cbn [descend] in D.
    destruct (String.eqb k "attributes") eqn:E; [discriminate|].
    apply child_in_field_ne. cbn. now rewrite E.
  - now apply child_erase_all.
Qed.

(** Whatever an untouched path leads to is the same before and after. *)
Lemma reduce_at_frame p : forall s v,
  untouched s p = true -> at_path p (reduce_at s v) = at_path p v.
Proof.
  induction p as [|st p IH]; intros s v U; [discriminate U|].
  cbn [untouched] in U. cbn [at_path].
  destruct (descend s st) as [s'|] eqn:D.
  - rewrite (child_descend _ _ _ v D).
    destruct (child st v) as [c|]; [|reflexivity]. cbn [option_map].
    now apply IH.
  - now rewrite (child_aside _ _ v D U).
Qed.

(** *** The claims about the stripper *)

Lemma optimize_strip_scene x :
  is_scene x = true -> optimize_strip x = Normal (strip_spec x).
Proof.
  intros S. rewrite optimize_strip_spec.
  now rewrite (is_scene_defined _ S).
Qed.

Lemma optimize_strip_again x y :
  optimize_strip x = Normal y -> optimize_strip y = Normal y.
Proof.
  rewrite (optimize_strip_spec x).
  destruct (strip_defined x) eqn:D; [|discriminate].
  intros [= <-]. rewrite optimize_strip_spec, strip_defined_spec, D.
  now rewrite (strip_spec_fixed _ (strip_spec_stripped x)).
Qed.

(** On every document, running the script on its own result changes nothing;
    where the first run throws, so does the composition. *)
Lemma optimize_strip_twice x :
  (y <- optimize_strip x ;; optimize_strip y) = optimize_strip x.
Proof.
  destruct (optimize_strip x) as [y|e] eqn:E; [|reflexivity].
  cbn [bind]. now apply (optimize_strip_again x).
Qed.

(** C5. Stripping is idempotent: on every scene description the script
    completes with a document on which a second run completes with that
    same document. *)
Theorem strip_idempotent (x : json) (S : is_scene x = true) :
  exists y, optimize_strip x = Normal y /\ optimize_strip y = Normal y.
Proof.
  exists (strip_spec x). split; [now apply optimize_strip_scene|].
  apply (optimize_strip_again x). now apply optimize_strip_scene.
Qed.

Lemma strip_idempotent_witness :
  is_scene textured_scene = true
  /\ exists y, optimize_strip textured_scene = Normal y
              /\ optimize_strip y = Normal y.
Proof.
  split; [reflexivity|]. apply (strip_idempotent textured_scene). reflexivity.
Defined.

(** C6. After the script has run on a scene description the document is
    [stripped]: it has no [images], [textures] or [samplers] table, no
    material has a [normalTexture], [occlusionTexture] or [emissiveTexture]
    or, inside [pbrMetallicRoughness], a [baseColorTexture] or
    [metallicRoughnessTexture], and no primitive's [attributes] has a
    [NORMAL], [TEXCOORD_0], [TEXCOORD_1], [TANGENT] or [COLOR_0] entry.  A
    material holding only [pbrMetallicRoughness.baseColorTexture] comes out
    with an empty [pbrMetallicRoughness] object. *)
Theorem strip_removes_textures_and_attributes
    (x : json) (S : is_scene x = true) :
  (exists y, optimize_strip x = Normal y /\ stripped y = true)
  /\ (forall texture,
        optimize_strip (one_material (base_color_only texture))
        = Normal (one_material (JObj [("pbrMetallicRoughness", JObj [])]))).
Proof.
  split.
  - exists (strip_spec x). split; [now apply optimize_strip_scene|].
    apply strip_spec_stripped.
  - intros texture. reflexivity.
Qed.

Lemma strip_removes_textures_and_attributes_witness :
  is_scene textured_scene = true
  /\ (exists y, optimize_strip textured_scene = Normal y /\ stripped y = true)
  /\ (forall texture,
        optimize_strip (one_material (base_color_only texture))
        = Normal (one_material (JObj [("pbrMetallicRoughness", JObj [])]))).
Proof.
  split; [reflexivity|].
  apply (strip_removes_textures_and_attributes textured_scene). reflexivity.
Defined.

(** C7. On every scene description the script returns exactly the document
    with the enumerated fields erased ([strip_spec]); every value reached by
    a path that does not go through an erased field is the same before and
    after, and in particular each primitive keeps its [POSITION] attribute,
    its [indices] and its [mode]. *)
Theorem strip_frame (x : json) (S : is_scene x = true) :
  exists y,
    optimize_strip x = Normal y
    /\ y = strip_spec x
    /\ (forall p, untouched Scene p = true -> at_path p y = at_path p x)
    /\ (forall m i,
          at_path (primitive_path m i [Key "attributes"; Key "POSITION"]) y
          = at_path (primitive_path m i [Key "attributes"; Key "POSITION"]) x
          /\ at_path (primitive_path m i [Key "indices"]) y
             = at_path (primitive_path m i [Key "indices"]) x
          /\ at_path (primitive_path m i [Key "mode"]) y
             = at_path (primitive_path m i [Key "mode"]) x).
Proof.
  exists (strip_spec x).
  split; [now apply optimize_strip_scene|]. split; [reflexivity|].
  split; [intros p U; now apply (reduce_at_frame p Scene)|].
  intros m i. repeat split; apply (reduce_at_frame _ Scene); reflexivity.
Qed.

Lemma strip_frame_witness :
  is_scene textured_scene = true
  /\ exists y,
       optimize_strip textured_scene = Normal y
       /\ y = strip_spec textured_scene
       /\ (forall p, untouched Scene p = true ->
              at_path p y = at_path p textured_scene)
       /\ (forall m i,
             at_path (primitive_path m i [Key "attributes"; Key "POSITION"]) y
             = at_path (primitive_path m i [Key "attributes"; Key "POSITION"])
                 textured_scene
             /\ at_path (primitive_path m i [Key "indices"]) y
                = at_path (primitive_path m i [Key "indices"]) textured_scene
             /\ at_path (primitive_path m i [Key "mode"]) y
                = at_path (primitive_path m i [Key "mode"]) textured_scene).
Proof.
  split; [reflexivity|]. apply (strip_frame textured_scene). reflexivity.
Defined.

(** C8, as the claim states it, fails: a scene description without materials
    and without textures whose mesh carries a [NORMAL] attribute is not
    returned unchanged. *)
Lemma strip_changes_scene_without_materials :
  is_scene bare_lit_scene = true
  /\ lacks ("materials" :: texture_tables) bare_lit_scene = true
  /\ optimize_strip bare_lit_scene <> Normal bare_lit_scene.
Proof.
  split; [reflexivity|]. split; [reflexivity|].
  intros H. vm_compute in H. discriminate H.
Qed.

(** C8, amended. The script throws on no scene description: absent
    [materials], [pbrMetallicRoughness], [meshes], [primitives] and
    [attributes] are skipped.  A scene description with no materials, no
    texture tables and no primitive carrying one of the five stripped
    attributes is returned unchanged. *)
Theorem strip_never_throws (x : json) (S : is_scene x = true) :
  (exists y, optimize_strip x = Normal y)
  /\ (lacks ("materials" :: texture_tables) x = true ->
      each mesh_stripped (prop x "meshes") = true ->
      optimize_strip x = Normal x).
Proof.
  split; [exists (strip_spec x); now apply optimize_strip_scene|].
  intros L M. rewrite (optimize_strip_scene _ S). f_equal.
  apply strip_spec_fixed. unfold stripped.
  cbn [lacks forallb] in L. apply andb_true_iff in L as [L1 L2].
  unfold has_key in L1. destruct (prop x "materials"); [discriminate L1|].
  fold (lacks texture_tables x) in L2. rewrite L2, M. reflexivity.
Qed.

Lemma strip_never_throws_witness :
  is_scene wireframe_scene = true
  /\ lacks ("materials" :: texture_tables) wireframe_scene = true
  /\ each mesh_stripped (prop wireframe_scene "meshes") = true
  /\ (exists y, optimize_strip wireframe_scene = Normal y)
  /\ optimize_strip wireframe_scene = Normal wireframe_scene.
Proof.
  destruct (strip_never_throws wireframe_scene eq_refl) as [E U].
  split; [reflexivity|]. split; [reflexivity|]. split; [reflexivity|].
  split; [exact E|]. apply U; reflexivity.
Defined.

End StripperFacts.

(** ** Facts about the studio viewer *)

Module ViewerFacts.
Import Viewer.
Local Open Scope R_scope.

(** *** Literals and trigonometry *)

Lemma literal_0 : literal 0 = 0.
Proof. cbn [literal RNumber]. unfold Q2R. simpl. lra. Qed.

Lemma literal_1 : literal 1 = 1.
Proof. cbn [literal RNumber]. unfold Q2R. simpl. lra. Qed.

Lemma literal_2 : literal 2 = 2.
Proof. cbn [literal RNumber]. unfold Q2R. simpl. lra. Qed.

Lemma literal_10 : literal 10 = 10.
Proof. cbn [literal RNumber]. unfold Q2R. simpl. lra. Qed.

Lemma literal_100 : literal 100 = 100.
Proof. cbn [literal RNumber]. unfold Q2R. simpl. lra. Qed.

Lemma literal_360 : literal 360 = 360.
Proof. cbn [literal RNumber]. unfold Q2R. simpl. lra. Qed.

Lemma literal_half : literal 0.5 = 1 / 2.
Proof. cbn [literal RNumber]. unfold Q2R. simpl. lra. Qed.

Lemma literal_fitOffset : literal 1.2 = 6 / 5.
Proof. cbn [literal RNumber]. unfold Q2R. simpl. lra. Qed.

Create Rewrite HintDb literals.
#[local] Hint Rewrite literal_0 literal_1 literal_2 literal_10 literal_100
  literal_360 literal_half literal_fitOffset : literals.

Lemma atan_lt_id x : 0 < x -> atan x < x.
Proof.
  intros Hx.
  destruct (MVT_cor2 atan (fun t => / (1 + t ^ 2)) 0 x Hx) as [c [E [C0 C1]]].
  { intros c _. apply derivable_pt_lim_atan. }
  rewrite atan_0 in E.
  assert (0 < c * c) by (apply Rmult_lt_0_compat; assumption).
  assert (/ (1 + c ^ 2) < 1).
  { rewrite <- Rinv_1 at 2. apply Rinv_lt_contravar; simpl; lra. }
  nra.
Qed.

Lemma atan_pos x : 0 < x -> 0 < atan x.
Proof. intros Hx. rewrite <- atan_0. now apply atan_increasing. Qed.

Lemma tan_PI8 : 0.4142 < tan (PI / 8) < 0.4143.
Proof.
  pose proof PI_RGT_0 as P.
  assert (T0 : 0 < tan (PI / 8)) by (apply tan_gt_0; lra).
  assert (C1 : cos (PI / 8) <> 0) by (apply Rgt_not_eq, cos_gt_0; lra).
  assert (C2 : cos (2 * (PI / 8)) <> 0) by (apply Rgt_not_eq, cos_gt_0; lra).
  assert (T1 : tan (PI / 8) < 1).
  { rewrite <- tan_PI4. apply tan_increasing; lra. }
  assert (N : 1 - tan (PI / 8) * tan (PI / 8) <> 0) by nra.
  pose proof (tan_2a (PI / 8) C1 C2 N) as E.
  replace (2 * (PI / 8)) with (PI / 4) in E by lra.
  rewrite tan_PI4 in E.
  set (t := tan (PI / 8)) in *.
  assert (Q : 1 - t * t = 2 * t).
  { apply (Rmult_eq_compat_r (1 - t * t)) in E.
    unfold Rdiv in E. rewrite Rmult_assoc, Rinv_l in E by exact N. lra. }
  split; nra.
Qed.

Lemma PI_upper : PI < 3.1421.
Proof.
  destruct (PI_2_3_7_ineq 1) as [_ H].
  unfold sum_f_R0, tg_alt, PI_2_3_7_tg, Ratan_seq in H. simpl in H.
  lra.
Qed.

(** *** What does not depend on the arithmetic *)

Section AnyNumber.
Context {num : Type} {N : Number num} {L : Library num}.

(** The method completes normally; the clip planes and the distance limit it
    assigns survive the trailing [controls.update()]. *)
Lemma fitCameraToSelection_writes (camera : PerspectiveCamera num L)
    (controls : OrbitControls num L) selection fitOffset :
  exists camera' controls',
    fitCameraToSelection camera controls selection fitOffset
    = Normal (camera', controls')
    /\ near camera' = new_near (fit camera controls selection fitOffset)
    /\ far camera' = new_far (fit camera controls selection fitOffset)
    /\ maxDistance controls'
       = new_maxDistance (fit camera controls selection fitOffset).
Proof.
  unfold fitCameraToSelection, update.
  destruct (orbit_update _ _ _ _) as [[[o t] p] q].
  eexists. eexists. split; [reflexivity|]. repeat split.
Qed.

Lemma fit_reads (c1 c2 : PerspectiveCamera num L)
    (k1 k2 : OrbitControls num L) selection fitOffset :
  position c1 = position c2 -> fov c1 = fov c2 -> aspect c1 = aspect c2 ->
  target k1 = target k2 ->
  fit c1 k1 selection fitOffset = fit c2 k2 selection fitOffset.
Proof.
  intros P F A T. unfold fit. rewrite P, F, A, T. reflexivity.
Qed.

End AnyNumber.

(** *** What [fit] computes, over the reals *)

Section Reals.
Context {L : Library R}.
Variables (camera : PerspectiveCamera R L) (controls : OrbitControls R L).
Variables (selection : list (Object3D R)) (fitOffset : option R).

Let f := fit camera controls selection fitOffset.

Lemma fit_fitHeightDistance :
  fitHeightDistance f = maxSize f / (2 * atan (PI * fov camera / 360)).
Proof.
  unfold f, fit. cbn [fitHeightDistance maxSize].
  autorewrite with literals. reflexivity.
Qed.

Lemma fit_fitWidthDistance :
  fitWidthDistance f = fitHeightDistance f / aspect camera.
Proof. reflexivity. Qed.

Lemma fit_distance :
  distance f
  = fitOffset_or_default fitOffset
    * Rmax (fitHeightDistance f) (fitWidthDistance f).
Proof. reflexivity. Qed.

Lemma fit_clip :
  new_near f = distance f / 100 /\ new_far f = distance f * 100
  /\ new_maxDistance f = distance f * 10.
Proof.
  unfold f, fit. cbn [new_near new_far new_maxDistance distance].
  autorewrite with literals. repeat split; reflexivity.
Qed.


End Reals.

(** *** Concrete runs *)

Ltac decide_lt :=
  repeat match goal with
         | |- context [Rlt_dec ?a ?b] => destruct (Rlt_dec a b); try lra
         end.

Ltac box_step :=
  cbn [maxSize center fold_left expandByObject union worldBox getSize
       getCenter isEmpty x y z Vector3_sub Vector3_add multiplyScalar
       num_lt num_sub num_add num_mul Math_max RNumber origin orb].

Ltac run_box := unfold fit; box_step; decide_lt; box_step.

Lemma maxSize_cube2 {L : Library R} (camera : PerspectiveCamera R L)
    (controls : OrbitControls R L) fitOffset :
  maxSize (fit camera controls [cube2] fitOffset) = 2.
Proof.
  unfold cube2. run_box.
  replace (1 - -1) with 2 by lra. now rewrite !(Rmax_left 2 2) by lra.
Qed.

Lemma maxSize_empty {L : Library R} (camera : PerspectiveCamera R L)
    (controls : OrbitControls R L) fitOffset :
  maxSize (fit camera controls [] fitOffset) = 0.
Proof.
  run_box. autorewrite with literals. now rewrite !(Rmax_left 0 0) by lra.
Qed.


Lemma fit_distance_flat {L : Library R} (camera : PerspectiveCamera R L)
    (controls : OrbitControls R L) selection fitOffset :
  maxSize (fit camera controls selection fitOffset) = 0 ->
  distance (fit camera controls selection fitOffset) = 0.
Proof.
  intros M.
  rewrite fit_distance, fit_fitWidthDistance, fit_fitHeightDistance, M.
  unfold Rdiv. rewrite !Rmult_0_l, (Rmax_left 0 0) by lra. ring.
Qed.

(** *** The claims about the camera fit *)

(** C1. At the scenario of the claim (a box of size (2,2,2) about the origin,
    a field of view of 45 degrees, aspect 1, the default margin 1.2) the
    method divides by twice the arc tangent of the half angle, not by twice
    its tangent.  The claim's formula gives a distance between 2.89 and 2.9;
    the distance the method computes is larger than 3.05. *)
Theorem fit_divides_by_atan :
  let f := fit camera0 controls0 [cube2] None in
  fitHeightDistance f = 2 / (2 * atan (PI * 45 / 360))
  /\ fitWidthDistance f = fitHeightDistance f / 1
  /\ distance f = 6 / 5 * (2 / (2 * atan (PI * 45 / 360)))
  /\ 2.89 < 6 / 5 * (2 / (2 * tan (PI * 45 / 360))) < 2.9
  /\ 3.05 < distance f.
Proof.
  intros f.
  assert (H : fitHeightDistance f = 2 / (2 * atan (PI * 45 / 360))).
  { unfold f. rewrite fit_fitHeightDistance, maxSize_cube2. reflexivity. }
  assert (D : distance f = 6 / 5 * (2 / (2 * atan (PI * 45 / 360)))).
  { unfold f. rewrite fit_distance, fit_fitWidthDistance. fold f. rewrite H.
    cbn [fitOffset_or_default aspect camera0].
    rewrite literal_fitOffset. f_equal.
    apply Rmax_left. right. field.
    pose proof PI_RGT_0. apply Rgt_not_eq, atan_pos. lra. }
  split; [exact H|]. split; [reflexivity|]. split; [exact D|].
  rewrite D. set (a := PI * 45 / 360).
  pose proof PI_RGT_0 as P0. pose proof PI_upper as P1.
  assert (A0 : 0 < a) by (unfold a; lra).
  assert (A1 : a < PI / 2) by (unfold a; lra).
  pose proof (atan_pos a A0) as T0.
  pose proof (atan_lt_id a A0) as T1.
  assert (E : forall t, 0 < t -> 6 / 5 * (2 / (2 * t)) = 6 / 5 * / t)
    by (intros t Ht; field; lra).
  rewrite (E (atan a)) by lra. split.
  - replace a with (PI / 8) by (unfold a; lra).
    destruct tan_PI8 as [B0 B1]. set (t := tan (PI / 8)) in *.
    rewrite (E t) by lra.
    split.
    + apply (Rmult_lt_reg_r t); [lra|].
      rewrite Rmult_assoc, Rinv_l by lra. lra.
    + apply (Rmult_lt_reg_r t); [lra|].
      rewrite Rmult_assoc, Rinv_l by lra. lra.
  - apply (Rmult_lt_reg_r (atan a)); [exact T0|].
    rewrite Rmult_assoc, Rinv_l by lra.
    assert (a < 0.3928) by (unfold a; lra). lra.
Qed.

(** C2, as the claim states it, fails: on an empty selection the method
    completes normally. *)
Lemma fit_empty_does_not_throw :
  fitCameraToSelection camera0 controls0 [] None <> Throw "EmptyInputError"
  /\ exists r, fitCameraToSelection camera0 controls0 [] None = Normal r.
Proof.
  split; [discriminate|]. eexists. reflexivity.
Qed.

(** C3, as the claim states it, fails: with the orbit target on the camera
    position the view direction has length 0, and the method completes
    normally. *)
Lemma fit_degenerate_does_not_throw :
  length (Vector3_sub (target controls_at_camera) (position camera0)) = 0
  /\ fitCameraToSelection camera0 controls_at_camera [cube2] None
     <> Throw "DegenerateDirectionError"
  /\ exists r,
       fitCameraToSelection camera0 controls_at_camera [cube2] None = Normal r.
Proof.
  split; [|split; [discriminate|eexists; reflexivity]].
  cbn [length Vector3_sub target position controls_at_camera camera0 x y z
       num_sub num_mul num_add Math_sqrt RNumber].
  replace (5 - 5) with 0 by lra.
  rewrite Rmult_0_l, !Rplus_0_l. apply sqrt_0.
Qed.


(** C9. The camera fit is a function of the boxes, the camera position, the
    orbit target, the field of view, the aspect ratio and the margin alone:
    whatever the implementation of numbers, two calls that agree on these
    compute and assign the same values, whatever else differs between the
    two cameras and controls; when the private state of the controls is the
    same too, the two calls leave the same camera and controls behind. *)
Theorem fit_deterministic {num : Type} {N : Number num} {L : Library num}
    (c1 c2 : PerspectiveCamera num L) (k1 k2 : OrbitControls num L)
    (selection : list (Object3D num)) (fitOffset : option num)
    (P : position c1 = position c2) (F : fov c1 = fov c2)
    (A : aspect c1 = aspect c2) (T : target k1 = target k2) :
  fit c1 k1 selection fitOffset = fit c2 k2 selection fitOffset
  /\ (orbit k1 = orbit k2 ->
      fitCameraToSelection c1 k1 selection fitOffset
      = fitCameraToSelection c2 k2 selection fitOffset).
Proof.
  pose proof (fit_reads c1 c2 k1 k2 selection fitOffset P F A T) as E.
  split; [exact E|]. intros O.
  unfold fitCameraToSelection, update, updateProjectionMatrix.
  cbn [position quaternion fov aspect near far projectionMatrix target
       maxDistance orbit].
  rewrite E, F, A, O. reflexivity.
Qed.

Lemma fit_deterministic_witness :
  position camera0 = position camera1 /\ fov camera0 = fov camera1
  /\ aspect camera0 = aspect camera1 /\ target controls0 = target controls1
  /\ fit camera0 controls0 [cube2] None = fit camera1 controls1 [cube2] None
  /\ (orbit controls0 = orbit controls1 ->
      fitCameraToSelection camera0 controls0 [cube2] None
      = fitCameraToSelection camera1 controls1 [cube2] None).
Proof.
  repeat (split; [reflexivity|]).
  apply (fit_deterministic camera0 camera1 controls0 controls1 [cube2] None);
    reflexivity.
Defined.

(** *** The claim about the view switch *)

(** C10. While no model is loaded, [setCameraView] returns at once for every
    view name: the viewer, and with it the camera position, the camera
    rotation and the orbit target, is left as it was. *)
Theorem setCameraView_without_model {num : Type} {N : Number num}
    {L : Library num} (this : StudioViewer num L) (view : string)
    (M : model this = None) :
  setCameraView this view = Normal this.
Proof. unfold setCameraView. rewrite M. reflexivity. Qed.

Lemma setCameraView_without_model_witness :
  model viewer0 = None /\ setCameraView viewer0 "front" = Normal viewer0.
Proof.
  split; [reflexivity|].
  apply (setCameraView_without_model viewer0 "front"). reflexivity.
Defined.

End ViewerFacts.

(** ** More about the asset stripper *)

Module StripperExtras.
Import Stripper StripperFacts.

(** *** When the script throws *)

(** The deletions either run to completion, and then return the reduction,
    or throw a [TypeError]; they throw exactly on the documents outside
    [strip_defined]: [null], a truthy [materials], [meshes] or [primitives]
    that is not an array, and a [null] among the materials, the meshes or
    the primitives of a mesh. *)
Theorem strip_throws_only_TypeError (x : json) :
  (strip_defined x = true /\ optimize_strip x = Normal (strip_spec x))
  \/ (strip_defined x = false /\ optimize_strip x = Throw "TypeError").
Proof.
  rewrite optimize_strip_spec.
  destruct (strip_defined x); [left|right]; split; reflexivity.
Qed.

Lemma guard_not_array ok c :
  ToBoolean (Some c) = true -> (forall l, c <> JArr l) ->
  guard (is_array_of ok) (Some c) = false.
Proof.
  intros T A. unfold guard. rewrite T.
  destruct c; try reflexivity. now elim (A elems).
Qed.

(** A [materials] or [meshes] property that is truthy without being an array
    (an object, a non-empty string, a non-zero number, [true]) makes the
    script throw a [TypeError]: the value has no [forEach]. *)
Theorem strip_rejects_non_array (o : list (string * json)) (k : string)
    (c : json) (K : k = "materials" \/ k = "meshes")
    (P : lookup k o = Some c) (T : ToBoolean (Some c) = true)
    (A : forall l, c <> JArr l) :
  optimize_strip (JObj o) = Throw "TypeError".
Proof.
  rewrite optimize_strip_spec. unfold strip_defined. cbn [prop not_null andb].
  destruct K as [-> | ->]; rewrite P, (guard_not_array _ c T A).
  - reflexivity.
  - now rewrite andb_false_r.
Qed.

Lemma strip_rejects_non_array_witness :
  ("meshes" = "materials" \/ "meshes" = "meshes")
  /\ lookup "meshes" [("meshes", JObj [("0", JObj [])])]
     = Some (JObj [("0", JObj [])])
  /\ ToBoolean (Some (JObj [("0", JObj [])])) = true
  /\ (forall l, JObj [("0", JObj [])] <> JArr l)
  /\ optimize_strip (JObj [("meshes", JObj [("0", JObj [])])])
     = Throw "TypeError".
Proof.
  split; [right; reflexivity|]. split; [reflexivity|]. split; [reflexivity|].
  split; [discriminate|].
  apply (strip_rejects_non_array _ "meshes" (JObj [("0", JObj [])]));
    [right; reflexivity | reflexivity | reflexivity | discriminate].
Defined.

Lemma guard_falsy ok c : ToBoolean c = false -> guard ok c = true.
Proof. intros F. destruct c; [|reflexivity]. unfold guard. now rewrite F. Qed.

Lemma in_field_falsy k g v :
  ToBoolean (prop v k) = false -> in_field k (in_each g) v = v.
Proof.
  intros F. apply in_field_fixed. intros c E. rewrite E in F.
  now apply falsy_in_each.
Qed.

(** A [materials] or [meshes] property that is absent or falsy ([null],
    [false], [0], the empty string) is skipped: on an object whose two
    properties are both of that kind the script only deletes the [images],
    [textures] and [samplers] tables. *)
Theorem strip_skips_falsy (o : list (string * json))
    (M : ToBoolean (lookup "materials" o) = false)
    (S : ToBoolean (lookup "meshes" o) = false) :
  optimize_strip (JObj o)
  = Normal (JObj (remove "samplers" (remove "textures" (remove "images" o)))).
Proof.
  rewrite optimize_strip_spec. unfold strip_defined. cbn [prop not_null andb].
  rewrite (guard_falsy _ _ M), (guard_falsy _ _ S). cbn [andb]. f_equal.
  unfold strip_spec.
  change (JObj (remove "samplers" (remove "textures" (remove "images" o))))
    with (erase_all texture_tables (JObj o)).
  set (g := erase_all texture_tables (JObj o)).
  assert (P1 : prop g "materials" = lookup "materials" o)
    by (apply (prop_erase_all_ne "materials" texture_tables (JObj o));
        reflexivity).
  assert (P2 : prop g "meshes" = lookup "meshes" o)
    by (apply (prop_erase_all_ne "meshes" texture_tables (JObj o));
        reflexivity).
  rewrite (in_field_falsy "materials" spec_material g) by now rewrite P1.
  apply in_field_falsy. now rewrite P2.
Qed.

Lemma strip_skips_falsy_witness :
  ToBoolean
    (lookup "materials"
       [("materials", JNull); ("images", JArr []); ("meshes", JNum 0)])
  = false
  /\ ToBoolean
       (lookup "meshes"
          [("materials", JNull); ("images", JArr []); ("meshes", JNum 0)])
     = false
  /\ optimize_strip
       (JObj [("materials", JNull); ("images", JArr []); ("meshes", JNum 0)])
     = Normal (JObj [("materials", JNull); ("meshes", JNum 0)]).
Proof.
  split; [reflexivity|]. split; [reflexivity|].
  apply (strip_skips_falsy
           [("materials", JNull); ("images", JArr []); ("meshes", JNum 0)]);
    reflexivity.
Defined.

(** *** What the script never does *)

Lemma prop_erase_all_among k ks v :
  not_among k ks = false -> prop (erase_all ks v) k = None.
Proof.
  intros A. pose proof (has_key_erase_all k ks v) as H.
  fold (not_among k ks) in H. rewrite A, andb_false_r in H.
  unfold has_key in H. now destruct (prop (erase_all ks v) k).
Qed.

Lemma child_no_new s st v c :
  descend s st = None ->
  child st (reduce_at s v) = Some c -> child st v = Some c.
Proof.
  intros D H.
  destruct (match st with Key k => not_among k (erased_at s) | Index _ => true
            end) eqn:A.
  - now rewrite <- (child_aside s st v D A).
  - destruct st as [k|i]; [|discriminate A]. exfalso.
    cbn [child] in H.
    destruct s; cbn [erased_at] in A; try discriminate A;
      cbn [reduce_at] in H.
    + unfold strip_spec in H. cbn [descend] in D.
      destruct (String.eqb k "materials") eqn:E1; [discriminate|].
      destruct (String.eqb k "meshes") eqn:E2; [discriminate|].
      rewrite !prop_in_field_ne, (prop_erase_all_among _ _ _ A) in H
        by assumption.
      discriminate H.
    + unfold spec_material in H.
      rewrite (prop_erase_all_among _ _ _ A) in H. discriminate H.
    + rewrite (prop_erase_all_among _ _ _ A) in H. discriminate H.
    + rewrite (prop_erase_all_among _ _ _ A) in H. discriminate H.
Qed.

Lemma reduce_at_no_new p : forall s v c,
  at_path p (reduce_at s v) = Some c -> exists c', at_path p v = Some c'.
Proof.
  induction p as [|st p IH]; intros s v c H; [now exists v|].
  cbn [at_path] in *.
  destruct (child st (reduce_at s v)) as [c1|] eqn:C; [|discriminate].
  destruct (descend s st) as [s'|] eqn:D.
  - rewrite (child_descend _ _ _ v D) in C.
    destruct (child st v) as [c0|]; [|discriminate].
    injection C as <-. now apply (IH s' c0 c).
  - rewrite (child_no_new _ _ _ _ D C). now exists c.
Qed.

(** The script only deletes: whatever path leads to a value in the document
    it returns led to a value in the document it was given. *)
Theorem strip_adds_nothing (x y : json) (p : list step) (c : json)
    (R : optimize_strip x = Normal y) (H : at_path p y = Some c) :
  exists c', at_path p x = Some c'.
Proof.
  rewrite optimize_strip_spec in R.
  destruct (strip_defined x); [|discriminate]. injection R as <-.
  now apply (reduce_at_no_new p Scene x c).
Qed.

Lemma strip_adds_nothing_witness :
  optimize_strip (one_material (base_color_only JNull))
  = Normal (one_material (JObj [("pbrMetallicRoughness", JObj [])]))
  /\ at_path [Key "materials"; Index 0; Key "pbrMetallicRoughness"]
       (one_material (JObj [("pbrMetallicRoughness", JObj [])]))
     = Some (JObj [])
  /\ exists c',
       at_path [Key "materials"; Index 0; Key "pbrMetallicRoughness"]
         (one_material (base_color_only JNull))
       = Some c'.
Proof.
  split; [reflexivity|]. split; [reflexivity|].
  apply (strip_adds_nothing (one_material (base_color_only JNull))
           (one_material (JObj [("pbrMetallicRoughness", JObj [])]))
           [Key "materials"; Index 0; Key "pbrMetallicRoughness"] (JObj []));
    reflexivity.
Defined.

(** *** The shape of the result *)

Lemma is_object_erase_all ks v : is_object (erase_all ks v) = is_object v.
Proof.
  destruct (is_object v) eqn:O.
  - destruct v; try discriminate O.
    now destruct (erase_all_object ks props) as [o' ->].
  - now rewrite erase_all_other.
Qed.

Lemma is_object_in_field k g v : is_object (in_field k g v) = is_object v.
Proof. now destruct v. Qed.

Lemma optional_array_map p g c :
  (forall x : json, p (g x) = p x) ->
  optional (is_array_of p) (option_map (in_each g) c)
  = optional (is_array_of p) c.
Proof.
  intros H. destruct c as [c|]; [|reflexivity].
  destruct c; try reflexivity. simpl.
  rewrite forallb_over_map. now apply forallb_pointwise.
Qed.

Lemma optional_object_map g c :
  (forall x : json, is_object (g x) = is_object x) ->
  optional is_object (option_map g c) = optional is_object c.
Proof. intros H. destruct c; simpl; auto. Qed.

Lemma is_material_spec mat : is_material (spec_material mat) = is_material mat.
Proof.
  unfold is_material, spec_material.
  rewrite is_object_erase_all, is_object_in_field.
  rewrite prop_erase_all_ne by reflexivity. rewrite prop_in_field_eq.
  now rewrite (optional_object_map _ _ (is_object_erase_all pbr_textures)).
Qed.

Lemma is_primitive_spec p : is_primitive (spec_primitive p) = is_primitive p.
Proof.
  unfold is_primitive, spec_primitive.
  rewrite is_object_in_field, prop_in_field_eq.
  now rewrite (optional_object_map _ _ (is_object_erase_all wireframe_unused)).
Qed.

Lemma is_mesh_spec mesh : is_mesh (spec_mesh mesh) = is_mesh mesh.
Proof.
  unfold is_mesh, spec_mesh. rewrite is_object_in_field, prop_in_field_eq.
  now rewrite (optional_array_map _ _ _ is_primitive_spec).
Qed.

Lemma is_scene_spec x : is_scene (strip_spec x) = is_scene x.
Proof.
  unfold is_scene. rewrite prop_spec_materials, prop_spec_meshes.
  rewrite (optional_array_map _ _ _ is_material_spec).
  rewrite (optional_array_map _ _ _ is_mesh_spec).
  unfold strip_spec. now rewrite !is_object_in_field, is_object_erase_all.
Qed.

(** What the script returns on a scene description is a scene description
    again: objects stay objects and lists stay lists, so the document can be
    handed on to the pipeline or stripped once more. *)
Theorem strip_keeps_scene_shape (x : json) (S : is_scene x = true) :
  exists y, optimize_strip x = Normal y /\ is_scene y = true.
Proof.
  exists (strip_spec x). split; [now apply optimize_strip_scene|].
  now rewrite is_scene_spec.
Qed.

Lemma strip_keeps_scene_shape_witness :
  is_scene textured_scene = true
  /\ exists y, optimize_strip textured_scene = Normal y /\ is_scene y = true.
Proof.
  split; [reflexivity|].
  apply (strip_keeps_scene_shape textured_scene). reflexivity.
Defined.

Lemma forEach_nth f l l' :
  forEach f l = Normal l' ->
  List.length l' = List.length l
  /\ forall i m, nth_error l i = Some m ->
       exists m', nth_error l' i = Some m' /\ f m = Normal m'.
Proof.
  revert l'. induction l as [|a l IH]; intros l' H.
  - injection H as <-. split; [reflexivity|]. now intros [|i].
  - cbn [forEach] in H. destruct (f a) as [b|] eqn:F; [|discriminate].
    cbn [bind] in H. destruct (forEach f l) as [r|]; [|discriminate].
    cbn [bind] in H. injection H as <-.
    destruct (IH r eq_refl) as [Len Nth]. split; [simpl; now rewrite Len|].
    intros [|i] m Hm; simpl in *.
    + injection Hm as <-. now exists b.
    + now apply Nth.
Qed.

Lemma forEach_spec_material l :
  forallb not_null l = true -> forEach strip_mat l = Normal (map spec_material l).
Proof.
  intros H. rewrite (forEach_map _ _ _ l strip_mat_spec). now rewrite H.
Qed.

Lemma forEach_spec_mesh l :
  forallb mesh_defined l = true ->
  forEach strip_mesh l = Normal (map spec_mesh l).
Proof.
  intros H. rewrite (forEach_map _ _ _ l strip_mesh_spec). now rewrite H.
Qed.

Lemma strip_defined_lists x :
  strip_defined x = true ->
  (forall l, prop x "materials" = Some (JArr l) -> forallb not_null l = true)
  /\ (forall l, prop x "meshes" = Some (JArr l) ->
              forallb mesh_defined l = true).
Proof.
  unfold strip_defined. intros D.
  apply andb_true_iff in D as [D D3]. apply andb_true_iff in D as [_ D2].
  split; intros l E; [rewrite E in D2; exact D2|rewrite E in D3; exact D3].
Qed.

(** No material and no mesh is dropped, duplicated or moved: the lists of
    the result have the lengths of the lists of the input, and the element
    at each index is what the callback of the script returns on the element
    the input has at that index. *)
Theorem strip_keeps_lists (x y : json) (R : optimize_strip x = Normal y) :
  (forall l, prop x "materials" = Some (JArr l) ->
     exists l', prop y "materials" = Some (JArr l')
       /\ List.length l' = List.length l
       /\ forall i m, nth_error l i = Some m ->
            exists m', nth_error l' i = Some m' /\ strip_mat m = Normal m')
  /\ (forall l, prop x "meshes" = Some (JArr l) ->
     exists l', prop y "meshes" = Some (JArr l')
       /\ List.length l' = List.length l
       /\ forall i m, nth_error l i = Some m ->
            exists m', nth_error l' i = Some m' /\ strip_mesh m = Normal m').
Proof.
  rewrite optimize_strip_spec in R.
  destruct (strip_defined x) eqn:D; [|discriminate]. injection R as <-.
  destruct (strip_defined_lists x D) as [DM DS].
  split; intros l E.
  - exists (map spec_material l). rewrite prop_spec_materials, E.
    split; [reflexivity|].
    apply forEach_nth, forEach_spec_material, DM, E.
  - exists (map spec_mesh l). rewrite prop_spec_meshes, E.
    split; [reflexivity|].
    apply forEach_nth, forEach_spec_mesh, DS, E.
Qed.

Lemma strip_keeps_lists_witness :
  optimize_strip (one_material (base_color_only JNull))
  = Normal (one_material (JObj [("pbrMetallicRoughness", JObj [])]))
  /\ exists l',
       prop (one_material (JObj [("pbrMetallicRoughness", JObj [])]))
         "materials" = Some (JArr l')
       /\ List.length l' = 1.
Proof.
  split; [reflexivity|].
  destruct (strip_keeps_lists (one_material (base_color_only JNull))
              (one_material (JObj [("pbrMetallicRoughness", JObj [])]))
              eq_refl) as [M _].
  destruct (M [base_color_only JNull] eq_refl) as (l' & P & Len & _).
  exists l'. split; assumption.
Defined.

Lemma keys_remove k (o : list (string * json)) :
  map fst (remove k o) = filter (fun k' => negb (String.eqb k k')) (map fst o).
Proof.
  induction o as [|[k' v] o IH]; simpl; [reflexivity|].
  destruct (String.eqb k k'); simpl; now rewrite IH.
Qed.

Lemma keys_update k g (o : list (string * json)) :
  map fst (update k g o) = map fst o.
Proof.
  induction o as [|[k' v] o IH]; simpl; [reflexivity|].
  destruct (String.eqb k k'); simpl; [reflexivity|now rewrite IH].
Qed.

Lemma filter_filter {A : Type} (p q : A -> bool) l :
  filter p (filter q l) = filter (fun a => q a && p a) l.
Proof.
  induction l as [|a l IH]; simpl; [reflexivity|].
  destruct (q a); simpl; [destruct (p a)|]; now rewrite IH.
Qed.

(** The properties of the returned document are the properties of the one
    given, in the same order, without [images], [textures] and [samplers]. *)
Theorem strip_keeps_key_order (o : list (string * json)) (y : json)
    (R : optimize_strip (JObj o) = Normal y) :
  exists o',
    y = JObj o'
    /\ map fst o'
       = filter (fun k => not_among k texture_tables) (map fst o).
Proof.
  rewrite optimize_strip_spec in R.
  destruct (strip_defined (JObj o)); [|discriminate]. injection R as <-.
  unfold strip_spec. cbn [erase_all texture_tables fold_left erase in_field].
  eexists. split; [reflexivity|].
  rewrite !keys_update, !keys_remove, !filter_filter.
  apply filter_ext. intros k. unfold not_among, texture_tables.
  cbn [forallb]. now rewrite andb_true_r, !(String.eqb_sym k).
Qed.

Lemma strip_keeps_key_order_witness :
  optimize_strip
    (JObj [("materials", JNull); ("images", JArr []); ("meshes", JNum 0)])
  = Normal (JObj [("materials", JNull); ("meshes", JNum 0)])
  /\ exists o',
       JObj [("materials", JNull); ("meshes", JNum 0)] = JObj o'
       /\ map fst o' = ["materials"; "meshes"].
Proof.
  split; [reflexivity|].
  apply (strip_keeps_key_order
           [("materials", JNull); ("images", JArr []); ("meshes", JNum 0)]).
  reflexivity.
Defined.

End StripperExtras.

(** ** More about the studio viewer *)

Module ViewerExtras.
Import Viewer ViewerFacts.

(** *** What does not depend on the arithmetic *)

Section AnyNumber.
Context {num : Type} {N : Number num} {L : Library num}.

Lemma update_keeps (camera : PerspectiveCamera num L)
    (controls : OrbitControls num L) :
  fov (fst (update camera controls)) = fov camera
  /\ aspect (fst (update camera controls)) = aspect camera
  /\ near (fst (update camera controls)) = near camera
  /\ far (fst (update camera controls)) = far camera
  /\ projectionMatrix (fst (update camera controls)) = projectionMatrix camera
  /\ maxDistance (snd (update camera controls)) = maxDistance controls.
Proof.
  unfold update. destruct (orbit_update _ _ _ _) as [[[o t] p] q].
  repeat split.
Qed.

(** Whatever state the camera was in, [fitCameraToSelection] and
    [onWindowResize] leave it with the projection matrix of its current
    field of view, aspect ratio and clip planes: both recompute the matrix
    after their last write to these parameters. *)
Theorem projection_made_current (camera : PerspectiveCamera num L)
    (controls : OrbitControls num L) (selection : list (Object3D num))
    (fitOffset : option num) (this : StudioViewer num L)
    (clientWidth clientHeight : num) :
  (exists camera' controls',
     fitCameraToSelection camera controls selection fitOffset
     = Normal (camera', controls')
     /\ projection_current camera')
  /\ projection_current
       (Viewer.camera (onWindowResize this clientWidth clientHeight))
  /\ aspect (Viewer.camera (onWindowResize this clientWidth clientHeight))
     = num_div clientWidth clientHeight.
Proof.
  split; [|split; reflexivity].
  unfold fitCameraToSelection, update, projection_current.
  destruct (orbit_update _ _ _ _) as [[[o t] p] q].
  eexists. eexists. split; reflexivity.
Qed.

(** [setCameraView] and a frame of [animate] never throw and never change
    the field of view, the aspect ratio, the clip planes, the projection
    matrix, the distance limit of the controls or the loaded model; a
    projection matrix that was current stays current. *)
Theorem view_and_frame_keep_optics (this : StudioViewer num L)
    (view : string) :
  (exists this',
     setCameraView this view = Normal this'
     /\ fov (camera this') = fov (camera this)
     /\ aspect (camera this') = aspect (camera this)
     /\ near (camera this') = near (camera this)
     /\ far (camera this') = far (camera this)
     /\ projectionMatrix (camera this') = projectionMatrix (camera this)
     /\ maxDistance (controls this') = maxDistance (controls this)
     /\ model this' = model this
     /\ (projection_current (camera this) ->
         projection_current (camera this')))
  /\ fov (camera (animate this)) = fov (camera this)
  /\ aspect (camera (animate this)) = aspect (camera this)
  /\ near (camera (animate this)) = near (camera this)
  /\ far (camera (animate this)) = far (camera this)
  /\ projectionMatrix (camera (animate this)) = projectionMatrix (camera this)
  /\ maxDistance (controls (animate this)) = maxDistance (controls this)
  /\ model (animate this) = model this
  /\ (projection_current (camera this) ->
      projection_current (camera (animate this))).
Proof.
  split.
  - unfold setCameraView. destruct (model this) as [m|] eqn:M.
    + set (c := lookAt _ _).
      assert (C : fov c = fov (camera this) /\ aspect c = aspect (camera this)
                  /\ near c = near (camera this) /\ far c = far (camera this)
                  /\ projectionMatrix c = projectionMatrix (camera this)).
      { unfold c. repeat destruct (String.eqb view _); repeat split. }
      destruct C as (C1 & C2 & C3 & C4 & C5).
      destruct (update_keeps c (controls this)) as (U1 & U2 & U3 & U4 & U5 & U6).
      destruct (update c (controls this)) as [c' k']. cbn [fst snd] in *.
      eexists. split; [reflexivity|]. cbn [camera controls model].
      rewrite U1, U2, U3, U4, U5, U6, C1, C2, C3, C4, C5.
      repeat split. unfold projection_current.
      now rewrite U1, U2, U3, U4, U5, C1, C2, C3, C4, C5.
    + exists this. rewrite M. repeat split. auto.
  - unfold animate.
    destruct (update_keeps (camera this) (controls this))
      as (U1 & U2 & U3 & U4 & U5 & U6).
    destruct (update (camera this) (controls this)) as [c' k'].
    cbn [fst snd camera controls model] in *.
    rewrite U1, U2, U3, U4, U5, U6. repeat split.
    unfold projection_current. now rewrite U1, U2, U3, U4, U5.
Qed.

(** With a model loaded, switching to one of the four named views forgets
    where the camera was: two viewers that differ only in the position and
    the rotation of their cameras end up in the same state. *)
Theorem named_view_forgets_pose (this1 this2 : StudioViewer num L)
    (view : string) (V : In view view_names)
    (M : model this1 <> None) (M12 : model this1 = model this2)
    (K : controls this1 = controls this2)
    (F : fov (camera this1) = fov (camera this2))
    (A : aspect (camera this1) = aspect (camera this2))
    (Ne : near (camera this1) = near (camera this2))
    (Fa : far (camera this1) = far (camera this2))
    (P : projectionMatrix (camera this1) = projectionMatrix (camera this2)) :
  setCameraView this1 view = setCameraView this2 view.
Proof.
  unfold setCameraView. rewrite <- M12, <- K.
  destruct (model this1) as [m|]; [|now elim M].
  assert (E : forall a b c,
             lookAt (set_position (camera this1) a b c)
               (vec3 (literal 0) (literal 0) (literal 0))
             = lookAt (set_position (camera this2) a b c)
                 (vec3 (literal 0) (literal 0) (literal 0))).
  { intros a b c. unfold lookAt, set_position.
    cbn [position quaternion fov aspect near far projectionMatrix].
    now rewrite F, A, Ne, Fa, P. }
  destruct V as [<- | [<- | [<- | [<- | []]]]];
    cbn [String.eqb Ascii.eqb Bool.eqb]; now rewrite E.
Qed.


(** *** The view buttons *)

Lemma setCameraView_completes (this : StudioViewer num L) (view : string) :
  exists this',
    setCameraView this view = Normal this'
    /\ (model this = None -> this' = this).
Proof.
  unfold setCameraView. destruct (model this) as [m|].
  - destruct (update _ _) as [c k]. eexists. split; [reflexivity|discriminate].
  - now exists this.
Qed.

Lemma removed_not_active (b : Button) :
  ~ In "active" (classList (classList_remove "active" b)).
Proof.
  cbn [classList classList_remove]. intros H.
  apply filter_In in H as [_ H]. now rewrite String.eqb_refl in H.
Qed.

Lemma removed_keeps_others (b : Button) (token : string) :
  token <> "active" ->
  In token (classList (classList_remove "active" b)) <-> In token (classList b).
Proof.
  intros T. cbn [classList classList_remove]. rewrite filter_In.
  split; [now intros [H _]|]. intros H. split; [exact H|].
  apply negb_true_iff, String.eqb_neq. congruence.
Qed.

Lemma added_active (b : Button) :
  In "active" (classList (classList_add "active" b)).
Proof.
  cbn [classList classList_add].
  destruct (existsb (String.eqb "active") (classList b)) eqn:E.
  - apply existsb_exists in E as (c & I & C).
    apply String.eqb_eq in C. now subst c.
  - apply in_or_app. right. now left.
Qed.

Lemma added_keeps_others (b : Button) (token : string) :
  token <> "active" ->
  In token (classList (classList_add "active" b)) <-> In token (classList b).
Proof.
  intros T. cbn [classList classList_add].
  destruct (existsb (String.eqb "active") (classList b)); [reflexivity|].
  rewrite in_app_iff. split; [|auto].
  intros [H|[H|[]]]; [exact H|congruence].
Qed.

Lemma clicked_nth before target after j b' :
  nth_error (clicked before target after) j = Some b' ->
  exists b,
    nth_error (before ++ target :: after) j = Some b
    /\ dataset_view b' = dataset_view b
    /\ (In "active" (classList b') <-> j = List.length before)
    /\ (forall token, token <> "active" ->
          In token (classList b') <-> In token (classList b)).
Proof.
  unfold clicked. intros H.
  destruct (Nat.lt_ge_cases j (List.length before)) as [Lt|Ge].
  - rewrite nth_error_app1 in H by now rewrite length_map.
    rewrite nth_error_map in H.
    rewrite nth_error_app1 by exact Lt.
    destruct (nth_error before j) as [b|]; [|discriminate].
    injection H as <-. exists b. split; [reflexivity|]. split; [reflexivity|].
    split; [|now apply removed_keeps_others].
    split; [intros I; now elim (removed_not_active b)|].
    intros ->. now elim (Nat.lt_irrefl (List.length before)).
  - rewrite nth_error_app2 in H by now rewrite length_map.
    rewrite length_map in H. rewrite nth_error_app2 by exact Ge.
    destruct (j - List.length before) as [|n] eqn:D; cbn [nth_error] in *.
    + injection H as <-. exists target.
      split; [reflexivity|]. split; [reflexivity|]. split.
      * split; [intros _|intros _; apply added_active].
        apply Nat.le_antisymm; [|exact Ge]. now apply Nat.sub_0_le.
      * intros token T.
        now rewrite added_keeps_others, removed_keeps_others.
    + rewrite nth_error_map in H.
      destruct (nth_error after n) as [b|]; [|discriminate].
      injection H as <-. exists b. split; [reflexivity|]. split; [reflexivity|].
      split; [|now apply removed_keeps_others].
      split; [intros I; now elim (removed_not_active b)|].
      intros ->. rewrite Nat.sub_diag in D. discriminate.
Qed.

(** A click on a view button never throws and leaves exactly the clicked
    button with the [active] token; every button keeps its [data-view] and
    its other tokens, and no button is added or removed.  While no model is
    loaded the click moves the highlight and nothing else. *)
Theorem click_highlights_one_button (before : list Button) (target : Button)
    (after : list Button) (this : StudioViewer num L) :
  exists buttons' this',
    onClick before target after this = Normal (buttons', this')
    /\ List.length buttons' = List.length (before ++ target :: after)
    /\ (forall j b', nth_error buttons' j = Some b' ->
         exists b,
           nth_error (before ++ target :: after) j = Some b
           /\ dataset_view b' = dataset_view b
           /\ (In "active" (classList b') <-> j = List.length before)
           /\ (forall token, token <> "active" ->
                 In token (classList b') <-> In token (classList b)))
    /\ (model this = None -> this' = this).
Proof.
  unfold onClick.
  destruct (setCameraView_completes this
              (dataset_view
                 (classList_add "active" (classList_remove "active" target))))
    as (this' & E & U).
  rewrite E. cbn [bind].
  exists (clicked before target after), this'.
  split; [reflexivity|]. split.
  - unfold clicked. rewrite !length_app. cbn [List.length].
    now rewrite !length_map.
  - split; [|exact U]. intros j b'. apply clicked_nth.
Qed.

End AnyNumber.

Lemma view_and_frame_keep_optics_witness :
  projection_current (camera viewer_loaded)
  /\ exists this',
       setCameraView viewer_loaded "front" = Normal this'
       /\ far (camera this') = far (camera viewer_loaded)
       /\ projection_current (camera this').
Proof.
  split; [reflexivity|].
  destruct (view_and_frame_keep_optics viewer_loaded "front")
    as [(this' & E & _ & _ & _ & F & _ & _ & _ & P) _].
  exists this'. split; [exact E|]. split; [exact F|]. apply P. reflexivity.
Defined.

Lemma named_view_forgets_pose_witness :
  In "top" view_names /\ model viewer_loaded <> None
  /\ setCameraView viewer_loaded "top" = setCameraView viewer_moved "top".
Proof.
  split; [cbn; auto|]. split; [discriminate|].
  apply (named_view_forgets_pose viewer_loaded viewer_moved "top");
    try reflexivity; [cbn; auto|discriminate].
Defined.


(** *** The fit, over the reals *)

Local Open Scope R_scope.

Section Reals.
Context {L : Library R}.
Variables (camera : PerspectiveCamera R L) (controls : OrbitControls R L).

Lemma getSize_nonneg (box : Box3 R) :
  0 <= x (getSize box) /\ 0 <= y (getSize box) /\ 0 <= z (getSize box).
Proof.
  assert (O : 0 <= x (@origin R _) /\ 0 <= y (@origin R _)
              /\ 0 <= z (@origin R _)).
  { unfold origin. cbn [x y z]. rewrite literal_0. repeat split; lra. }
  destruct box as [|bmin bmax]; [exact O|].
  unfold getSize. destruct (isEmpty (Box3_span bmin bmax)) eqn:E; [exact O|].
  cbn [isEmpty num_lt RNumber] in E.
  destruct (Rlt_dec (x bmax) (x bmin)); [discriminate|].
  destruct (Rlt_dec (y bmax) (y bmin)); [discriminate|].
  destruct (Rlt_dec (z bmax) (z bmin)); [discriminate|].
  cbn [Vector3_sub x y z num_sub RNumber]. repeat split; lra.
Qed.

Lemma maxSize_nonneg selection fitOffset :
  0 <= maxSize (fit camera controls selection fitOffset).
Proof.
  unfold fit. cbn [maxSize Math_max RNumber].
  destruct (getSize_nonneg (fold_left expandByObject selection Box3_empty))
    as (X & _ & _).
  eapply Rle_trans; [exact X|].
  eapply Rle_trans; [apply Rmax_l|apply Rmax_l].
Qed.

Lemma fitHeightDistance_nonneg selection fitOffset :
  0 < fov camera ->
  0 <= fitHeightDistance (fit camera controls selection fitOffset).
Proof.
  intros F. rewrite fit_fitHeightDistance.
  pose proof (maxSize_nonneg selection fitOffset) as M.
  assert (0 < atan (PI * fov camera / 360)).
  { apply atan_pos. pose proof PI_RGT_0.
    apply Rdiv_lt_0_compat; [|lra]. apply Rmult_lt_0_compat; lra. }
  apply Rmult_le_pos; [exact M|].
  apply Rlt_le, Rinv_0_lt_compat. lra.
Qed.

(** For every selection, the empty one and single points included, the
    distance the fit computes is never negative and the near plane is never
    behind the far plane, as long as the field of view, the aspect ratio
    and the margin are positive. *)
Theorem fit_distance_never_negative (selection : list (Object3D R))
    (fitOffset : option R) (F : 0 < fov camera) (A : 0 < aspect camera)
    (O : 0 < fitOffset_or_default fitOffset) :
  0 <= maxSize (fit camera controls selection fitOffset)
  /\ 0 <= distance (fit camera controls selection fitOffset)
  /\ new_near (fit camera controls selection fitOffset)
     <= new_far (fit camera controls selection fitOffset).
Proof.
  pose proof (fitHeightDistance_nonneg selection fitOffset F) as H.
  assert (D : 0 <= distance (fit camera controls selection fitOffset)).
  { rewrite fit_distance. apply Rmult_le_pos; [lra|].
    eapply Rle_trans; [exact H|apply Rmax_l]. }
  destruct (fit_clip camera controls selection fitOffset) as (Cn & Cf & _).
  split; [apply maxSize_nonneg|]. split; [exact D|].
  rewrite Cn, Cf. lra.
Qed.

(** In a viewport at least as wide as it is high the height of the view
    decides the distance; in a viewport higher than wide the width does,
    and the camera moves back by the inverse of the aspect ratio. *)
Theorem fit_distance_by_aspect (selection : list (Object3D R))
    (fitOffset : option R) (F : 0 < fov camera) (A : 0 < aspect camera) :
  (1 <= aspect camera ->
   distance (fit camera controls selection fitOffset)
   = fitOffset_or_default fitOffset
     * fitHeightDistance (fit camera controls selection fitOffset))
  /\ (aspect camera <= 1 ->
      distance (fit camera controls selection fitOffset)
      = fitOffset_or_default fitOffset
        * (fitHeightDistance (fit camera controls selection fitOffset)
           / aspect camera)).
Proof.
  pose proof (fitHeightDistance_nonneg selection fitOffset F) as H.
  rewrite fit_distance, fit_fitWidthDistance.
  set (h := fitHeightDistance _) in *.
  assert (I : 0 < / aspect camera) by now apply Rinv_0_lt_compat.
  split; intros B; f_equal.
  - apply Rmax_left. unfold Rdiv.
    assert (/ aspect camera <= 1).
    { rewrite <- Rinv_1. apply Rinv_le_contravar; lra. }
    nra.
  - apply Rmax_right. unfold Rdiv.
    assert (1 <= / aspect camera).
    { rewrite <- Rinv_1 at 1. apply Rinv_le_contravar; lra. }
    nra.
Qed.

End Reals.

Lemma fit_distance_never_negative_witness :
  0 < fov camera0 /\ 0 < aspect camera0 /\ 0 < fitOffset_or_default None
  /\ 0 <= distance (fit camera0 controls0 [point_object] None)
  /\ new_near (fit camera0 controls0 [point_object] None)
     <= new_far (fit camera0 controls0 [point_object] None).
Proof.
  assert (O : 0 < fitOffset_or_default None)
    by (cbn [fitOffset_or_default]; rewrite literal_fitOffset; lra).
  split; [simpl; lra|]. split; [simpl; lra|]. split; [exact O|].
  apply (fit_distance_never_negative camera0 controls0 [point_object] None);
    [simpl; lra|simpl; lra|exact O].
Defined.

Lemma fit_distance_by_aspect_witness :
  0 < fov camera0 /\ 0 < aspect camera0 /\ 1 <= aspect camera0
  /\ distance (fit camera0 controls0 [cube2] None)
     = fitOffset_or_default None
       * fitHeightDistance (fit camera0 controls0 [cube2] None).
Proof.
  split; [simpl; lra|]. split; [simpl; lra|]. split; [simpl; lra|].
  apply (fit_distance_by_aspect camera0 controls0 [cube2] None);
    simpl; lra.
Defined.

(** *** The box of a selection *)

Lemma Rmin_swap a b c : Rmin (Rmin a b) c = Rmin (Rmin a c) b.
Proof. unfold Rmin. repeat destruct (Rle_dec _ _); lra. Qed.

Lemma Rmax_swap a b c : Rmax (Rmax a b) c = Rmax (Rmax a c) b.
Proof. unfold Rmax. repeat destruct (Rle_dec _ _); lra. Qed.

Lemma union_swap (a b c : Box3 R) :
  union (union a b) c = union (union a c) b.
Proof.
  destruct a as [|amin amax], b as [|bmin bmax], c as [|cmin cmax];
    cbn [union]; try reflexivity.
  - unfold Vector3_min, Vector3_max. cbn [x y z Math_min Math_max RNumber].
    f_equal; f_equal; first [apply Rmin_comm | apply Rmax_comm].
  - unfold Vector3_min, Vector3_max. cbn [x y z Math_min Math_max RNumber].
    f_equal; f_equal; first [apply Rmin_swap | apply Rmax_swap].
Qed.

Lemma expand_permutation (l l' : list (Object3D R)) :
  Permutation l l' ->
  forall box, fold_left expandByObject l box = fold_left expandByObject l' box.
Proof.
  induction 1 as [|o l l' _ IH|o1 o2 l|l l' l'' _ IH1 _ IH2]; intros box;
    cbn [fold_left].
  - reflexivity.
  - apply IH.
  - unfold expandByObject at 2 3 5 6. now rewrite union_swap.
  - now rewrite IH1.
Qed.

(** The order in which the objects of a selection are given does not
    matter: the fit computes and assigns the same values for every
    rearrangement of the selection. *)
Theorem fit_ignores_selection_order {L : Library R}
    (camera : PerspectiveCamera R L) (controls : OrbitControls R L)
    (selection selection' : list (Object3D R)) (fitOffset : option R)
    (P : Permutation selection selection') :
  fit camera controls selection fitOffset
  = fit camera controls selection' fitOffset
  /\ fitCameraToSelection camera controls selection fitOffset
     = fitCameraToSelection camera controls selection' fitOffset.
Proof.
  assert (E : fit camera controls selection fitOffset
              = fit camera controls selection' fitOffset).
  { unfold fit. now rewrite (expand_permutation _ _ P Box3_empty). }
  split; [exact E|]. unfold fitCameraToSelection. now rewrite E.
Qed.

Lemma fit_ignores_selection_order_witness :
  Permutation [cube2; offcentre_object] [offcentre_object; cube2]
  /\ fit camera0 controls0 [cube2; offcentre_object] None
     = fit camera0 controls0 [offcentre_object; cube2] None.
Proof.
  split; [apply perm_swap|].
  apply (fit_ignores_selection_order camera0 controls0
           [cube2; offcentre_object] [offcentre_object; cube2] None).
  apply perm_swap.
Defined.

(** *** Adding to a selection *)

Section Growth.
Context {L : Library R}.
Variables (camera : PerspectiveCamera R L) (controls : OrbitControls R L).

Lemma getSize_union (box : Box3 R) (o : Box3 R) :
  x (getSize box) <= x (getSize (union box o))
  /\ y (getSize box) <= y (getSize (union box o))
  /\ z (getSize box) <= z (getSize (union box o)).
Proof.
  destruct (getSize_nonneg (union box o)) as (X & Y & Z).
  assert (O : x (@origin R _) = 0 /\ y (@origin R _) = 0
              /\ z (@origin R _) = 0).
  { unfold origin. cbn [x y z]. now rewrite literal_0. }
  destruct O as (Ox & Oy & Oz).
  destruct box as [|bmin bmax].
  { cbn [getSize]. rewrite Ox, Oy, Oz. repeat split; assumption. }
  unfold getSize at 1 3 5.
  destruct (isEmpty (Box3_span bmin bmax)) eqn:E.
  { rewrite Ox, Oy, Oz. repeat split; assumption. }
  destruct o as [|omin omax]; cbn [union].
  { unfold getSize. rewrite E. repeat split; lra. }
  cbn [isEmpty num_lt RNumber] in E.
  destruct (Rlt_dec (x bmax) (x bmin)); [discriminate|].
  destruct (Rlt_dec (y bmax) (y bmin)); [discriminate|].
  destruct (Rlt_dec (z bmax) (z bmin)); [discriminate|].
  pose proof (Rmin_l (x bmin) (x omin)). pose proof (Rmax_l (x bmax) (x omax)).
  pose proof (Rmin_l (y bmin) (y omin)). pose proof (Rmax_l (y bmax) (y omax)).
  pose proof (Rmin_l (z bmin) (z omin)). pose proof (Rmax_l (z bmax) (z omax)).
  unfold getSize, isEmpty, Vector3_min, Vector3_max.
  cbn [x y z num_lt Math_min Math_max RNumber].
  repeat match goal with
         | |- context [Rlt_dec ?a ?b] => destruct (Rlt_dec a b); [exfalso; lra|]
         end.
  cbn [orb Vector3_sub x y z num_sub RNumber]. repeat split; lra.
Qed.

Lemma Rmax_mono a b c d : a <= c -> b <= d -> Rmax a b <= Rmax c d.
Proof.
  intros H1 H2. apply Rmax_lub.
  - eapply Rle_trans; [exact H1|apply Rmax_l].
  - eapply Rle_trans; [exact H2|apply Rmax_r].
Qed.

(** Adding an object to a selection never brings the camera closer: with a
    positive field of view, aspect ratio and margin, the largest extent of
    the box and the fit distance can only grow. *)
Theorem fit_grows_with_selection (selection : list (Object3D R))
    (object : Object3D R) (fitOffset : option R)
    (F : 0 < fov camera) (A : 0 < aspect camera)
    (O : 0 < fitOffset_or_default fitOffset) :
  maxSize (fit camera controls selection fitOffset)
  <= maxSize (fit camera controls (selection ++ [object]) fitOffset)
  /\ distance (fit camera controls selection fitOffset)
     <= distance (fit camera controls (selection ++ [object]) fitOffset).
Proof.
  assert (M : maxSize (fit camera controls selection fitOffset)
              <= maxSize (fit camera controls (selection ++ [object])
                            fitOffset)).
  { unfold fit. cbn [maxSize Math_max RNumber].
    rewrite fold_left_app. cbn [fold_left]. unfold expandByObject at 4 5 6.
    destruct (getSize_union (fold_left expandByObject selection Box3_empty)
                (worldBox object)) as (X & Y & Z).
    apply Rmax_mono; [apply Rmax_mono|]; assumption. }
  split; [exact M|].
  rewrite !fit_distance, !fit_fitWidthDistance, !fit_fitHeightDistance.
  assert (T : 0 < atan (PI * fov camera / 360)).
  { apply atan_pos. pose proof PI_RGT_0.
    apply Rdiv_lt_0_compat; [|lra]. apply Rmult_lt_0_compat; lra. }
  assert (I : 0 < / (2 * atan (PI * fov camera / 360)))
    by (apply Rinv_0_lt_compat; lra).
  assert (J : 0 < / aspect camera) by now apply Rinv_0_lt_compat.
  apply Rmult_le_compat_l; [lra|].
  unfold Rdiv. apply Rmax_mono.
  - apply Rmult_le_compat_r; [lra|exact M].
  - apply Rmult_le_compat_r; [lra|].
    apply Rmult_le_compat_r; [lra|exact M].
Qed.

End Growth.

Lemma fit_grows_with_selection_witness :
  0 < fov camera0 /\ 0 < aspect camera0 /\ 0 < fitOffset_or_default None
  /\ distance (fit camera0 controls0 [cube2] None)
     <= distance (fit camera0 controls0 ([cube2] ++ [offcentre_object]) None).
Proof.
  assert (O : 0 < fitOffset_or_default None)
    by (cbn [fitOffset_or_default]; rewrite literal_fitOffset; lra).
  split; [simpl; lra|]. split; [simpl; lra|]. split; [exact O|].
  apply (fit_grows_with_selection camera0 controls0 [cube2] offcentre_object
           None); [simpl; lra|simpl; lra|exact O].
Defined.

End ViewerExtras.

(** ** The camera fit on the state of the viewer *)

Module FitFacts.
Import Viewer ViewerFacts ViewerExtras.
Local Open Scope R_scope.

(** *** What the method hands to [controls.update()] *)

Section Hands.
Context {num : Type} {N : Number num} {L : Library num}.
Variables (camera : PerspectiveCamera num L) (controls : OrbitControls num L).
Variables (selection : list (Object3D num)) (fitOffset : option num).

Lemma fitCameraToSelection_hands :
  fitCameraToSelection camera controls selection fitOffset
  = Normal
      (update
         {| position := new_position (fit camera controls selection fitOffset);
            quaternion := quaternion camera;
            fov := fov camera;
            aspect := aspect camera;
            near := new_near (fit camera controls selection fitOffset);
            far := new_far (fit camera controls selection fitOffset);
            projectionMatrix :=
              makePerspective (fov camera) (aspect camera)
                (new_near (fit camera controls selection fitOffset))
                (new_far (fit camera controls selection fitOffset)) |}
         {| target := new_target (fit camera controls selection fitOffset);
            maxDistance :=
              new_maxDistance (fit camera controls selection fitOffset);
            orbit := orbit controls |}).
Proof. reflexivity. Qed.

(** With the laws of zero: a view direction that is the zero vector stays
    the zero vector under [normalize], and the camera goes to the centre. *)
Lemma fit_on_target (Z : ZeroLaws num N)
    (V : Vector3_sub (target controls) (position camera) = origin)
    (D : num_mul (literal 0) (distance (fit camera controls selection fitOffset))
         = literal 0) :
  direction (fit camera controls selection fitOffset) = origin
  /\ new_position (fit camera controls selection fitOffset)
     = center (fit camera controls selection fitOffset).
Proof.
  assert (Dir : direction (fit camera controls selection fitOffset) = origin).
  { unfold fit in D |- *. cbn [direction distance] in D |- *. rewrite V.
    unfold normalize, length, origin. cbn [x y z].
    rewrite zero_mul_zero, !zero_add_zero, sqrt_zero, zero_is_falsy.
    unfold divideScalar, multiplyScalar. cbn [x y z].
    now rewrite zero_mul_unit, D. }
  split; [exact Dir|].
  unfold fit in Dir |- *. cbn [direction new_position center] in Dir |- *.
  rewrite Dir. destruct (getCenter _) as [cx cy cz].
  unfold Vector3_sub, origin. cbn [x y z]. now rewrite !sub_zero.
Qed.

End Hands.

Lemma RZeroLaws : ZeroLaws R RNumber.
Proof.
  split; cbn [num_mul num_add num_sub num_div Math_sqrt truthy RNumber];
    rewrite ?literal_0, ?literal_1.
  - ring.
  - ring.
  - apply sqrt_0.
  - destruct (Req_dec_T 0 0) as [_|ne]; [reflexivity|now elim ne].
  - field.
  - intros c. ring.
Qed.

(** *** The box of a selection and its largest extent *)








(** *** The amended claims about the camera fit *)

(** C2, amended. On an empty selection the method completes normally: the
    box stays empty and the fit distance is 0, so the controls it hands to
    [controls.update()] have the origin as orbit target and 0 as distance
    limit, and the camera it hands over has both clip planes at 0; the clip
    planes and the distance limit are still 0 when the method returns. *)
Theorem fit_empty_selection {L : Library R} (camera : PerspectiveCamera R L)
    (controls : OrbitControls R L) (fitOffset : option R)
    (F : 0 < fov camera) (A : 0 < aspect camera) :
  fitCameraToSelection camera controls [] fitOffset
  = Normal
      (update
         {| position := new_position (fit camera controls [] fitOffset);
            quaternion := quaternion camera;
            fov := fov camera;
            aspect := aspect camera;
            near := 0;
            far := 0;
            projectionMatrix :=
              makePerspective (fov camera) (aspect camera) 0 0 |}
         {| target := vec3 0 0 0; maxDistance := 0; orbit := orbit controls |})
  /\ distance (fit camera controls [] fitOffset) = 0
  /\ new_target (fit camera controls [] fitOffset) = vec3 0 0 0
  /\ exists camera' controls',
       fitCameraToSelection camera controls [] fitOffset
       = Normal (camera', controls')
       /\ near camera' = 0 /\ far camera' = 0 /\ maxDistance controls' = 0.
Proof.
  pose proof (fit_distance_flat camera controls [] fitOffset
                (maxSize_empty camera controls fitOffset)) as D.
  destruct (fit_clip camera controls [] fitOffset) as (Cn & Cf & Cm).
  rewrite D in Cn, Cf, Cm.
  assert (Cn0 : new_near (fit camera controls [] fitOffset) = 0) by lra.
  assert (Cf0 : new_far (fit camera controls [] fitOffset) = 0) by lra.
  assert (Cm0 : new_maxDistance (fit camera controls [] fitOffset) = 0) by lra.
  assert (T : new_target (fit camera controls [] fitOffset) = vec3 0 0 0).
  { unfold fit. cbn [new_target fold_left getCenter]. unfold origin.
    now rewrite literal_0. }
  split.
  - rewrite fitCameraToSelection_hands. now rewrite Cn0, Cf0, Cm0, T.
  - split; [exact D|]. split; [exact T|].
    destruct (fitCameraToSelection_writes camera controls [] fitOffset)
      as (camera' & controls' & E & Hn & Hf & Hm).
    exists camera', controls'. rewrite Hn, Hf, Hm. repeat split; assumption.
Qed.

Lemma fit_empty_selection_witness :
  0 < fov camera0 /\ 0 < aspect camera0
  /\ fitCameraToSelection camera0 controls0 [] None
     = Normal
         (update
            {| position := new_position (fit camera0 controls0 [] None);
               quaternion := quaternion camera0;
               fov := fov camera0;
               aspect := aspect camera0;
               near := 0;
               far := 0;
               projectionMatrix :=
                 makePerspective (fov camera0) (aspect camera0) 0 0 |}
            {| target := vec3 0 0 0; maxDistance := 0;
               orbit := orbit controls0 |})
  /\ distance (fit camera0 controls0 [] None) = 0.
Proof.
  split; [simpl; lra|]. split; [simpl; lra|].
  destruct (fit_empty_selection camera0 controls0 None) as (E & D & _);
    [simpl; lra|simpl; lra|].
  split; [exact E|exact D].
Defined.

(** C3, amended. When the view direction is the zero vector (the camera is
    on the orbit target) the method completes normally: [normalize] divides
    by [length() || 1] and so leaves the zero vector as it is; the fit
    distance being a finite number (0 * distance = 0), the camera the method
    hands to [controls.update()] is on the centre of the box, which is also
    the new orbit target, and the clip planes and the distance limit are set
    from the fit distance as in every other case.  Proved for every
    implementation of numbers that satisfies the laws of zero. *)
Theorem fit_degenerate_direction {num : Type} {N : Number num}
    {L : Library num} (Z : ZeroLaws num N)
    (camera : PerspectiveCamera num L) (controls : OrbitControls num L)
    (selection : list (Object3D num)) (fitOffset : option num)
    (V : Vector3_sub (target controls) (position camera) = origin)
    (D : num_mul (literal 0)
           (distance (fit camera controls selection fitOffset))
         = literal 0) :
  fitCameraToSelection camera controls selection fitOffset
  = Normal
      (update
         {| position := center (fit camera controls selection fitOffset);
            quaternion := quaternion camera;
            fov := fov camera;
            aspect := aspect camera;
            near :=
              num_div (distance (fit camera controls selection fitOffset))
                (literal 100);
            far :=
              num_mul (distance (fit camera controls selection fitOffset))
                (literal 100);
            projectionMatrix :=
              makePerspective (fov camera) (aspect camera)
                (num_div (distance (fit camera controls selection fitOffset))
                   (literal 100))
                (num_mul (distance (fit camera controls selection fitOffset))
                   (literal 100)) |}
         {| target := center (fit camera controls selection fitOffset);
            maxDistance :=
              num_mul (distance (fit camera controls selection fitOffset))
                (literal 10);
            orbit := orbit controls |})
  /\ direction (fit camera controls selection fitOffset) = origin
  /\ exists camera' controls',
       fitCameraToSelection camera controls selection fitOffset
       = Normal (camera', controls')
       /\ near camera'
          = num_div (distance (fit camera controls selection fitOffset))
              (literal 100)
       /\ far camera'
          = num_mul (distance (fit camera controls selection fitOffset))
              (literal 100)
       /\ maxDistance controls'
          = num_mul (distance (fit camera controls selection fitOffset))
              (literal 10).
Proof.
  destruct (fit_on_target camera controls selection fitOffset Z V D)
    as [Dir Pos].
  split; [|split; [exact Dir|]].
  - rewrite fitCameraToSelection_hands, Pos. reflexivity.
  - destruct (fitCameraToSelection_writes camera controls selection fitOffset)
      as (camera' & controls' & E & Hn & Hf & Hm).
    exists camera', controls'. rewrite Hn, Hf, Hm. repeat split. exact E.
Qed.

Lemma fit_degenerate_direction_witness :
  ZeroLaws R RNumber
  /\ Vector3_sub (target controls_at_camera) (position camera0) = origin
  /\ num_mul (literal 0)
       (distance (fit camera0 controls_at_camera [cube2] None))
     = literal 0
  /\ direction (fit camera0 controls_at_camera [cube2] None) = origin
  /\ exists camera' controls',
       fitCameraToSelection camera0 controls_at_camera [cube2] None
       = Normal (camera', controls')
       /\ position camera' = center (fit camera0 controls_at_camera [cube2] None)
       /\ target controls'
          = center (fit camera0 controls_at_camera [cube2] None).
Proof.
  assert (V : Vector3_sub (target controls_at_camera) (position camera0)
              = origin).
  { unfold Vector3_sub, origin.
    cbn [target position controls_at_camera camera0 x y z num_sub RNumber].
    rewrite literal_0. f_equal; lra. }
  assert (D : num_mul (literal 0)
                (distance (fit camera0 controls_at_camera [cube2] None))
              = literal 0).
  { rewrite literal_0. cbn [num_mul RNumber]. ring. }
  destruct (fit_degenerate_direction RZeroLaws camera0 controls_at_camera
              [cube2] None V D) as (E & Dir & _).
  split; [exact RZeroLaws|]. split; [exact V|]. split; [exact D|].
  split; [exact Dir|].
  eexists. eexists. split; [exact E|]. split; reflexivity.
Defined.



End FitFacts.
